(** * Auto Backend: the [/generate] pipeline

    A shallow embedding of [src/index.ts] and [src/config/env.ts]:
    the JSON values the handler receives and answers with, the Zod schema
    [openApiSchema] together with the part of Zod's parser it exercises,
    the prompt handed to [generateObject], the response assembly and the
    start-up check of the credential.

    JavaScript values are modelled as follows.
    - A JSON value (what [c.req.json()] resolves with, what [c.json]
      sends) is a [json].  Numbers are the integer-valued ones: [JNum n]
      is the Number nearest to the integer [n], which is [n] itself up to
      2^53.  A number with a fraction has no [json]; no property proved
      here inspects a number of the request.
    - An object is the list of its own properties in property order; a
      JavaScript object never holds a key twice.
    - A value that may be [undefined] is an [option json].
    - Strings are sequences of 8-bit characters. *)

From Stdlib Require Import ZArith Ascii String DecimalString Lia.
From Stdlib Require QArith.
From stdpp Require Import base tactics option list strings gmap.

Local Open Scope Z_scope.

(** ** Characters and strings *)

Definition dquote : string := String "034"%char EmptyString.
Definition backslash : string := String "092"%char EmptyString.
Definition newline : string := String "010"%char EmptyString.

(** [Array.prototype.join] on strings. *)
Definition join (sep : string) (parts : list string) : string :=
  String.concat sep parts.

(** ** JSON values *)

#[local] Unset Elimination Schemes.

Inductive json : Type :=
| JNull
| JBool (b : bool)
| JNum (n : Z)
| JStr (s : string)
| JArr (items : list json)
| JObj (props : list (string * json)).

#[local] Set Elimination Schemes.

(** [data[key]] on an object: the own property, [undefined] when absent. *)
Fixpoint obj_get (key : string) (props : list (string * json)) : option json :=
  match props with
  | [] => None
  | (k, v) :: rest => if String.eqb k key then Some v else obj_get key rest
  end.

(** [key in data]. *)
Definition obj_has (key : string) (props : list (string * json)) : bool :=
  match obj_get key props with Some _ => true | None => false end.

(** [obj[key] = v]: an existing property keeps its place, a new one is
    added last. *)
Fixpoint obj_set (key : string) (v : json) (props : list (string * json))
  : list (string * json) :=
  match props with
  | [] => [(key, v)]
  | (k, w) :: rest =>
      if String.eqb k key then (k, v) :: rest else (k, w) :: obj_set key v rest
  end.

(** [Object.keys(obj)]. *)
Definition Object_keys {A} (props : list (string * A)) : list string :=
  map fst props.

(** Property access on a value that may be [undefined]: [v[key]]. *)
Definition member (key : string) (v : json) : option json :=
  match v with
  | JObj props => obj_get key props
  | _ => None
  end.

(** ** Regular expressions

    The fragment of JavaScript regular expressions that the schema uses,
    matched with Brzozowski derivatives. *)

Inductive RegExp : Type :=
| ReVoid
| ReEps
| ReLit (c : ascii)            (* a literal character, also an escaped one *)
| ReDigit                      (* \d *)
| ReCat (r1 r2 : RegExp)
| ReStar (r : RegExp).

(** [r+] *)
Definition RePlus (r : RegExp) : RegExp := ReCat r (ReStar r).

Definition is_digit (c : ascii) : bool :=
  let n := nat_of_ascii c in (48 <=? n)%nat && (n <=? 57)%nat.

Fixpoint nullable (r : RegExp) : bool :=
  match r with
  | ReVoid => false
  | ReEps => true
  | ReLit _ => false
  | ReDigit => false
  | ReCat r1 r2 => nullable r1 && nullable r2
  | ReStar _ => true
  end.

(** The derivative of [r] by [c], as a list of alternatives. *)
Fixpoint deriv (c : ascii) (r : RegExp) : list RegExp :=
  match r with
  | ReVoid => []
  | ReEps => []
  | ReLit d => if Ascii.eqb c d then [ReEps] else []
  | ReDigit => if is_digit c then [ReEps] else []
  | ReCat r1 r2 =>
      map (fun r1' => ReCat r1' r2) (deriv c r1)
      ++ (if nullable r1 then deriv c r2 else [])
  | ReStar r1 => map (fun r1' => ReCat r1' (ReStar r1)) (deriv c r1)
  end.

(** Does one of the alternatives [rs] match the whole of [s]? *)
Fixpoint matches_any (rs : list RegExp) (s : string) : bool :=
  match s with
  | EmptyString => existsb nullable rs
  | String c s' => matches_any (flat_map (deriv c) rs) s'
  end.

(** [/^r$/.test(s)]: without flags, [^] and [$] assert the start and the
    end of the input, so the test succeeds exactly when all of [s]
    matches [r]. *)
Definition RegExp_test_anchored (r : RegExp) (s : string) : bool :=
  matches_any [r] s.

(** The strings a regular expression denotes, to check the matcher
    against. *)
Inductive lang : RegExp -> string -> Prop :=
| lang_eps : lang ReEps EmptyString
| lang_lit c : lang (ReLit c) (String c EmptyString)
| lang_digit c : is_digit c = true -> lang ReDigit (String c EmptyString)
| lang_cat r1 r2 s1 s2 :
    lang r1 s1 -> lang r2 s2 -> lang (ReCat r1 r2) (s1 +:+ s2)
| lang_star_nil r : lang (ReStar r) EmptyString
| lang_star_cons r s1 s2 :
    lang r s1 -> lang (ReStar r) s2 -> lang (ReStar r) (s1 +:+ s2).

(** A run of decimal digits. *)
Fixpoint all_digits (s : string) : bool :=
  match s with
  | EmptyString => true
  | String c s' => is_digit c && all_digits s'
  end.

(** ** Zod: the part of the parser that [openApiSchema] exercises *)

(** [getParsedType], on the values JSON can carry. *)
Inductive ZodParsedType : Type :=
| PT_undefined | PT_string | PT_number | PT_boolean | PT_null | PT_array
| PT_object.

Definition getParsedType (data : option json) : ZodParsedType :=
  match data with
  | None => PT_undefined
  | Some JNull => PT_null
  | Some (JBool _) => PT_boolean
  | Some (JNum _) => PT_number
  | Some (JStr _) => PT_string
  | Some (JArr _) => PT_array
  | Some (JObj _) => PT_object
  end.

Definition ZodParsedType_name (t : ZodParsedType) : string :=
  match t with
  | PT_undefined => "undefined"
  | PT_string => "string"
  | PT_number => "number"
  | PT_boolean => "boolean"
  | PT_null => "null"
  | PT_array => "array"
  | PT_object => "object"
  end.

Inductive ZodIssueCode : Type :=
| invalid_type (expected received : ZodParsedType)
| invalid_string_regex.

Record ZodIssue : Type := mkIssue {
  issue_code : ZodIssueCode;
  issue_path : list string;
  issue_message : string
}.

(** The default error map for [invalid_type]. *)
Definition invalid_type_message (expected received : ZodParsedType) : string :=
  match received with
  | PT_undefined => "Required"
  | _ => "Expected " +:+ ZodParsedType_name expected +:+ ", received "
         +:+ ZodParsedType_name received
  end.

Definition invalid_type_issue (path : list string)
    (expected received : ZodParsedType) : ZodIssue :=
  mkIssue (invalid_type expected received) path
          (invalid_type_message expected received).

Inductive ZodStringCheck : Type :=
| check_regex (regex : RegExp) (message : string).

#[local] Unset Elimination Schemes.

Inductive ZodType : Type :=
| ZodString (checks : list ZodStringCheck)
| ZodAny
| ZodObject (shape : list (string * ZodType))
| ZodRecord (keyType valueType : ZodType)
| ZodOptional (innerType : ZodType).

#[local] Set Elimination Schemes.

(** What [_parse] returns: [INVALID] (aborted), or a value that is valid
    ([OK]) or carries an issue ([DIRTY]). *)
Inductive SyncParseReturnType : Type :=
| INVALID
| OK (value : option json)
| DIRTY (value : option json).

(** A pair handed to [ParseStatus.mergeObjectSync]. *)
Record ObjectPair : Type := mkPair {
  pair_key : SyncParseReturnType;
  pair_value : SyncParseReturnType;
  pair_alwaysSet : bool
}.

(** The property name a parsed key stands for; keys are parsed by string
    schemas, which hand the key back. *)
Definition property_key (v : option json) : string :=
  match v with
  | Some (JStr s) => s
  | _ => EmptyString
  end.

(** [ParseStatus.mergeObjectSync(status, pairs)]: the loop over [pairs],
    with the status ([dirty]) and [finalObject] built so far.  An aborted
    key or value makes the whole object [INVALID]; the key [__proto__] is
    never copied; a value is copied when it is defined (a present key of
    a JSON document always has a defined value, so [alwaysSet] adds no
    case). *)
Fixpoint mergeObjectSync_loop (dirty : bool) (finalObject : list (string * json))
    (pairs : list ObjectPair) : SyncParseReturnType :=
  match pairs with
  | [] => if dirty then DIRTY (Some (JObj finalObject))
          else OK (Some (JObj finalObject))
  | p :: rest =>
      match pair_key p, pair_value p with
      | INVALID, _ => INVALID
      | _, INVALID => INVALID
      | (OK k | DIRTY k) as kr, (OK v | DIRTY v) as vr =>
          let dirty' :=
            dirty
            || (match kr with DIRTY _ => true | _ => false end)
            || (match vr with DIRTY _ => true | _ => false end) in
          let finalObject' :=
            if String.eqb (property_key k) "__proto__" then finalObject
            else match v with
                 | Some w => obj_set (property_key k) w finalObject
                 | None => finalObject
                 end in
          mergeObjectSync_loop dirty' finalObject' rest
      end
  end.

Definition mergeObjectSync (status_dirty : bool) (pairs : list ObjectPair)
  : SyncParseReturnType :=
  mergeObjectSync_loop status_dirty [] pairs.

(** [ZodString._parse] after the type check: every check is run, a failed
    one adds its issue and makes the status dirty. *)
Fixpoint run_string_checks (path : list string) (s : string)
    (checks : list ZodStringCheck) : list ZodIssue * bool :=
  match checks with
  | [] => ([], false)
  | check_regex re msg :: rest =>
      let '(issues, dirty) := run_string_checks path s rest in
      if RegExp_test_anchored re s then (issues, dirty)
      else (mkIssue invalid_string_regex path msg :: issues, true)
  end.

(** [schema._parse(input)] with [input.path = path] and
    [input.data = data]: the issues added to the context, in the order
    they are added, and the returned value.

    - [ZodString]: a non-string is [INVALID]; otherwise the checks run.
    - [ZodAny]: [OK(input.data)].
    - [ZodOptional]: [OK(undefined)] on [undefined], the inner schema
      otherwise.
    - [ZodObject], with the default [unknownKeys: "strip"] and
      [catchall: never]: one pair per key of the shape, in shape order,
      parsed from [data[key]]; keys outside the shape are not looked at.
    - [ZodRecord]: one pair per key of the data, in [for ... in] order. *)
Fixpoint _parse (schema : ZodType) (path : list string) (data : option json)
  : list ZodIssue * SyncParseReturnType :=
  match schema with
  | ZodString checks =>
      match data with
      | Some (JStr s) =>
          let '(issues, dirty) := run_string_checks path s checks in
          (issues, if dirty then DIRTY data else OK data)
      | _ => ([invalid_type_issue path PT_string (getParsedType data)], INVALID)
      end
  | ZodAny => ([], OK data)
  | ZodOptional innerType =>
      match data with
      | None => ([], OK None)
      | Some _ => _parse innerType path data
      end
  | ZodObject shape =>
      match data with
      | Some (JObj props) =>
          let parsed :=
            (fix pairs_of (shape : list (string * ZodType))
               : list ZodIssue * list ObjectPair :=
               match shape with
               | [] => ([], [])
               | (key, keyValidator) :: rest =>
                   let '(issues, value) :=
                     _parse keyValidator (path ++ [key]) (obj_get key props) in
                   let '(issues', pairs) := pairs_of rest in
                   (issues ++ issues',
                    mkPair (OK (Some (JStr key))) value (obj_has key props)
                    :: pairs)
               end) shape in
          (fst parsed, mergeObjectSync false (snd parsed))
      | _ => ([invalid_type_issue path PT_object (getParsedType data)], INVALID)
      end
  | ZodRecord keyType valueType =>
      match data with
      | Some (JObj props) =>
          let parsed :=
            (fix pairs_of (entries : list (string * json))
               : list ZodIssue * list ObjectPair :=
               match entries with
               | [] => ([], [])
               | (key, v) :: rest =>
                   let '(kissues, kr) :=
                     _parse keyType (path ++ [key]) (Some (JStr key)) in
                   let '(vissues, vr) :=
                     _parse valueType (path ++ [key]) (Some v) in
                   let '(issues', pairs) := pairs_of rest in
                   (kissues ++ vissues ++ issues', mkPair kr vr true :: pairs)
               end) props in
          (fst parsed, mergeObjectSync false (snd parsed))
      | _ => ([invalid_type_issue path PT_object (getParsedType data)], INVALID)
      end
  end.

(** The [z] namespace. *)
Module z.
Definition string : ZodType := ZodString [].
(** [schema.regex(re, message)] on a string schema. *)
Definition regex (re : RegExp) (message : String.string) (schema : ZodType)
  : ZodType :=
  match schema with
  | ZodString checks => ZodString (checks ++ [check_regex re message])
  | other => other
  end.
Definition any : ZodType := ZodAny.
Definition object (shape : list (String.string * ZodType)) : ZodType :=
  ZodObject shape.
(** [z.record(valueType)]: the keys are strings. *)
Definition record (valueType : ZodType) : ZodType :=
  ZodRecord (ZodString []) valueType.
(** [z.record(keyType, valueType)]. *)
Definition record2 (keyType valueType : ZodType) : ZodType :=
  ZodRecord keyType valueType.
Definition optional (schema : ZodType) : ZodType := ZodOptional schema.
End z.

Record ZodError : Type := mkZodError { issues : list ZodIssue }.

Inductive SafeParseReturnType : Type :=
| SafeParseSuccess (data : option json)
| SafeParseError (error : ZodError).

(** [schema.safeParse(data)]: success exactly when the status is valid. *)
Definition safeParse (schema : ZodType) (data : json) : SafeParseReturnType :=
  match _parse schema [] (Some data) with
  | (_, OK value) => SafeParseSuccess value
  | (issues, _) => SafeParseError (mkZodError issues)
  end.

Definition success (r : SafeParseReturnType) : bool :=
  match r with SafeParseSuccess _ => true | SafeParseError _ => false end.

(** [error.format()]: the issue messages arranged as a tree that follows
    the issue paths; every node carries its own [_errors] list. *)
Definition empty_field_errors : json := JObj [("_errors", JArr [])].

(** [curr._errors.push(message)]. *)
Definition push_error (message : string) (curr : json) : json :=
  match curr with
  | JObj props =>
      match obj_get "_errors" props with
      | Some (JArr errors) =>
          JObj (obj_set "_errors" (JArr (errors ++ [JStr message])) props)
      | _ => curr
      end
  | _ => curr
  end.

(** The walk along [issue.path]: [curr[el] = curr[el] || { _errors: [] }]
    at every element, the message pushed at the last one (at the root for
    an empty path). *)
Fixpoint format_issue (path : list string) (message : string) (curr : json)
  : json :=
  match path with
  | [] => push_error message curr
  | el :: rest =>
      match curr with
      | JObj props =>
          let child := default empty_field_errors (obj_get el props) in
          JObj (obj_set el (format_issue rest message child) props)
      | _ => curr
      end
  end.

Definition ZodError_format (error : ZodError) : json :=
  fold_left (fun fieldErrors issue =>
               format_issue (issue_path issue) (issue_message issue) fieldErrors)
            (issues error) empty_field_errors.

(** ** [JSON.stringify] *)

Definition hex_digit (n : nat) : ascii :=
  if (n <? 10)%nat then ascii_of_nat (48 + n) else ascii_of_nat (87 + n).

(** [QuoteJSONString], one character at a time. *)
Definition quote_char (c : ascii) : string :=
  let n := nat_of_ascii c in
  if (n =? 8)%nat then backslash +:+ "b"
  else if (n =? 9)%nat then backslash +:+ "t"
  else if (n =? 10)%nat then backslash +:+ "n"
  else if (n =? 12)%nat then backslash +:+ "f"
  else if (n =? 13)%nat then backslash +:+ "r"
  else if (n =? 34)%nat then backslash +:+ dquote
  else if (n =? 92)%nat then backslash +:+ backslash
  else if (n <? 32)%nat then
    backslash +:+ "u00"
    +:+ String (hex_digit (n / 16)) (String (hex_digit (n mod 16)) EmptyString)
  else String c EmptyString.

Fixpoint quote_chars (s : string) : string :=
  match s with
  | EmptyString => EmptyString
  | String c s' => quote_char c +:+ quote_chars s'
  end.

Definition QuoteJSONString (s : string) : string :=
  dquote +:+ quote_chars s +:+ dquote.

(** An integer in decimal digits, with its sign. *)
Definition decimal (n : Z) : string := NilZero.string_of_int (Z.to_int n).

(** The Number nearest to the integer [n >= 0], as an integer: [n]
    rounded to 53 significant bits, a tie going to the even mantissa. *)
Definition nearest_double (n : Z) : Z :=
  if n <? 2 ^ 53 then n
  else
    let shift := Z.log2 n - 52 in
    let q := n / 2 ^ shift in
    let r := n mod 2 ^ shift in
    let half := 2 ^ (shift - 1) in
    let q' := if r <? half then q
              else if half <? r then q + 1
              else if Z.even q then q else q + 1 in
    q' * 2 ^ shift.

(** Is the Number nearest to [n] finite? *)
Definition is_finite (n : Z) : bool := nearest_double (Z.abs n) <? 2 ^ 1024.

Definition digit_count (n : Z) : Z := Z.of_nat (String.length (decimal n)).

(** The integer with the fewest significant digits that still reads back
    as the Number [x]: tried with [k], [k + 1], ... significant digits,
    the closest one taken when two serve, the even one on a tie. *)
Fixpoint shortest_from (fuel : nat) (k : Z) (x D : Z) : Z :=
  match fuel with
  | O => x
  | S fuel' =>
      if D <? k then x
      else
        let unit := 10 ^ (D - k) in
        let lo := x / unit * unit in
        let hi := lo + unit in
        let lo_ok := nearest_double lo =? x in
        let hi_ok := nearest_double hi =? x in
        if lo_ok && hi_ok then
          if x - lo <? hi - x then lo
          else if hi - x <? x - lo then hi
          else if Z.even (lo / unit) then lo else hi
        else if lo_ok then lo
        else if hi_ok then hi
        else shortest_from fuel' (k + 1) x D
  end.

Fixpoint strip_trailing_zeros (s : string) : string :=
  match s with
  | EmptyString => EmptyString
  | String c s' =>
      let t := strip_trailing_zeros s' in
      if Ascii.eqb c "0" && String.eqb t EmptyString then EmptyString
      else String c t
  end.

(** [Number::toString] of the Number [x >= 2^53]: all the digits up to
    21 of them, the exponent form beyond. *)
Definition positive_toString (x : Z) : string :=
  let v := shortest_from 17 1 x (digit_count x) in
  let n := digit_count v in
  if n <=? 21 then decimal v
  else
    match strip_trailing_zeros (decimal v) with
    | String d EmptyString => String d EmptyString +:+ "e+" +:+ decimal (n - 1)
    | String d rest => String d ("." +:+ rest) +:+ "e+" +:+ decimal (n - 1)
    | EmptyString => decimal v
    end.

(** [Number::toString] of the Number nearest to the integer [n]. *)
Definition Number_toString (n : Z) : string :=
  let x := nearest_double (Z.abs n) in
  if negb (x <? 2 ^ 1024) then (if n <? 0 then "-Infinity" else "Infinity")
  else if x <? 2 ^ 53 then decimal n
  else (if n <? 0 then "-" else EmptyString) +:+ positive_toString x.

(** [SerializeJSONProperty] with the indentation unit [gap] and the
    current indentation [indent]. *)
Fixpoint SerializeJSONProperty (gap indent : string) (value : json) : string :=
  let stepback := indent in
  let indent := indent +:+ gap in
  let wrap (opening closing : string) (partial : list string) : string :=
    match partial with
    | [] => opening +:+ closing
    | _ =>
        if String.eqb gap EmptyString then
          opening +:+ join "," partial +:+ closing
        else
          opening +:+ newline +:+ indent
          +:+ join ("," +:+ newline +:+ indent) partial
          +:+ newline +:+ stepback +:+ closing
    end in
  match value with
  | JNull => "null"
  | JBool true => "true"
  | JBool false => "false"
  | JNum n => if is_finite n then Number_toString n else "null"
  | JStr s => QuoteJSONString s
  | JArr items =>
      wrap "[" "]"
        ((fix elements (l : list json) : list string :=
            match l with
            | [] => []
            | x :: rest => SerializeJSONProperty gap indent x :: elements rest
            end) items)
  | JObj props =>
      wrap "{" "}"
        ((fix members (l : list (string * json)) : list string :=
            match l with
            | [] => []
            | (k, v) :: rest =>
                (QuoteJSONString k +:+ ":"
                 +:+ (if String.eqb gap EmptyString then EmptyString else " ")
                 +:+ SerializeJSONProperty gap indent v) :: members rest
            end) props)
  end.

Fixpoint spaces (n : nat) : string :=
  match n with
  | O => EmptyString
  | S n' => String " "%char (spaces n')
  end.

(** [JSON.stringify(value, null, space)]; [undefined] has no JSON text. *)
Definition JSON_stringify (value : option json) (space : nat) : option string :=
  match value with
  | None => None
  | Some v => Some (SerializeJSONProperty (spaces (Nat.min space 10)) EmptyString v)
  end.

(** [`${x}`] for the result of [JSON.stringify]. *)
Definition template_string (x : option string) : string :=
  default "undefined" x.

(** ** Dates

    [new Date()] holds a time value: the milliseconds since the epoch, an
    integer of absolute value at most 8.64e15.  The definitions follow
    ECMA-262, "Time Values and Time Range" to "Date Time String Format". *)
Module Date.

Definition msPerDay : Z := 86400000.
Definition msPerHour : Z := 3600000.
Definition msPerMinute : Z := 60000.
Definition msPerSecond : Z := 1000.

Definition maxTime : Z := 8640000000000000.

(** A time value in the range [TimeClip] keeps. *)
Definition valid_time (t : Z) : bool := (- maxTime <=? t) && (t <=? maxTime).

Definition Day (t : Z) : Z := t / msPerDay.
Definition TimeWithinDay (t : Z) : Z := t mod msPerDay.

Definition DaysInYear (y : Z) : Z :=
  if negb (y mod 4 =? 0) then 365
  else if negb (y mod 100 =? 0) then 366
  else if negb (y mod 400 =? 0) then 365
  else 366.

Definition DayFromYear (y : Z) : Z :=
  365 * (y - 1970) + (y - 1969) / 4 - (y - 1901) / 100 + (y - 1601) / 400.

(** The largest [y] with [DayFromYear y <= Day t]: a first guess from
    the mean length of a year, off by one year at most. *)
Definition YearFromTime (t : Z) : Z :=
  let d := Day t in
  let y := 1970 + (400 * d) / 146097 in
  if d <? DayFromYear y then y - 1
  else if DayFromYear (y + 1) <=? d then y + 1
  else y.

Definition InLeapYear (t : Z) : Z :=
  if DaysInYear (YearFromTime t) =? 366 then 1 else 0.

Definition DayWithinYear (t : Z) : Z := Day t - DayFromYear (YearFromTime t).

(** The day of the year on which month [m] (0 to 11) starts. *)
Definition month_start (leap m : Z) : Z :=
  match m with
  | 0 => 0
  | 1 => 31
  | 2 => 59 + leap
  | 3 => 90 + leap
  | 4 => 120 + leap
  | 5 => 151 + leap
  | 6 => 181 + leap
  | 7 => 212 + leap
  | 8 => 243 + leap
  | 9 => 273 + leap
  | 10 => 304 + leap
  | 11 => 334 + leap
  | _ => 365 + leap
  end.

Definition MonthFromTime (t : Z) : Z :=
  let d := DayWithinYear t in
  let leap := InLeapYear t in
  if d <? 31 then 0
  else if d <? 59 + leap then 1
  else if d <? 90 + leap then 2
  else if d <? 120 + leap then 3
  else if d <? 151 + leap then 4
  else if d <? 181 + leap then 5
  else if d <? 212 + leap then 6
  else if d <? 243 + leap then 7
  else if d <? 273 + leap then 8
  else if d <? 304 + leap then 9
  else if d <? 334 + leap then 10
  else 11.

Definition DateFromTime (t : Z) : Z :=
  DayWithinYear t - month_start (InLeapYear t) (MonthFromTime t) + 1.

Definition HourFromTime (t : Z) : Z := (t / msPerHour) mod 24.
Definition MinFromTime (t : Z) : Z := (t / msPerMinute) mod 60.
Definition SecFromTime (t : Z) : Z := (t / msPerSecond) mod 60.
Definition msFromTime (t : Z) : Z := t mod msPerSecond.

Definition digit_char (d : Z) : ascii := ascii_of_nat (48 + Z.to_nat d).

(** The last [k] decimal digits of [n], written before [rest]. *)
Fixpoint pad_before (k : nat) (n : Z) (rest : string) : string :=
  match k with
  | O => rest
  | S k' => pad_before k' (n / 10) (String (digit_char (n mod 10)) rest)
  end.

(** [n] as [k] decimal digits, with leading zeros. *)
Definition pad (k : nat) (n : Z) : string := pad_before k n EmptyString.

(** The year of the Date Time String Format: four digits from 0 to
    9999, a sign and six digits otherwise. *)
Definition year_string (y : Z) : string :=
  if (0 <=? y) && (y <=? 9999) then pad 4 y
  else if y <? 0 then "-" +:+ pad 6 (- y)
  else "+" +:+ pad 6 y.

(** [Date.prototype.toISOString] of a date with time value [t]. *)
Definition toISOString (t : Z) : string :=
  year_string (YearFromTime t)
  +:+ "-" +:+ pad 2 (MonthFromTime t + 1)
  +:+ "-" +:+ pad 2 (DateFromTime t)
  +:+ "T" +:+ pad 2 (HourFromTime t)
  +:+ ":" +:+ pad 2 (MinFromTime t)
  +:+ ":" +:+ pad 2 (SecFromTime t)
  +:+ "." +:+ pad 3 (msFromTime t)
  +:+ "Z".

(** *** Reading a date-time back: [Date.parse] on the complete UTC form
    [YYYY-MM-DDTHH:mm:ss.sssZ] (or with an expanded year). *)

Definition digit_value (c : ascii) : Z := Z.of_nat (nat_of_ascii c) - 48.

(** Reads [k] decimal digits after the digits already worth [acc]. *)
Fixpoint read_digits (k : nat) (acc : Z) (s : string) : option (Z * string) :=
  match k with
  | O => Some (acc, s)
  | S k' =>
      match s with
      | String c s' =>
          if is_digit c then read_digits k' (10 * acc + digit_value c) s'
          else None
      | EmptyString => None
      end
  end.

Definition expect (c : ascii) (s : string) : option string :=
  match s with
  | String c' s' => if Ascii.eqb c c' then Some s' else None
  | EmptyString => None
  end.

Definition read_year (s : string) : option (Z * string) :=
  match s with
  | String "+"%char s' => read_digits 6 0 s'
  | String "-"%char s' =>
      match read_digits 6 0 s' with
      | Some (y, rest) => if y =? 0 then None else Some (- y, rest)
      | None => None
      end
  | _ => read_digits 4 0 s
  end.

Definition DaysInMonth (leap m : Z) : Z :=
  month_start leap (m + 1) - month_start leap m.

(** [MakeDay(year, month, date)] for a month from 0 to 11. *)
Definition MakeDay (year month date : Z) : Z :=
  let leap := if DaysInYear year =? 366 then 1 else 0 in
  DayFromYear year + month_start leap month + date - 1.

Definition MakeTime (hour min sec ms : Z) : Z :=
  hour * msPerHour + min * msPerMinute + sec * msPerSecond + ms.

Definition MakeDate (day time : Z) : Z := day * msPerDay + time.

(** [Date.parse(s)]: the time value, or [None] for [NaN]. *)
Definition parse (s : string) : option Z :=
  '(year, s) ← read_year s;
  s ← expect "-" s;
  '(month, s) ← read_digits 2 0 s;
  s ← expect "-" s;
  '(date, s) ← read_digits 2 0 s;
  s ← expect "T" s;
  '(hour, s) ← read_digits 2 0 s;
  s ← expect ":" s;
  '(min, s) ← read_digits 2 0 s;
  s ← expect ":" s;
  '(sec, s) ← read_digits 2 0 s;
  s ← expect "." s;
  '(ms, s) ← read_digits 3 0 s;
  s ← expect "Z" s;
  let leap := if DaysInYear year =? 366 then 1 else 0 in
  if String.eqb s EmptyString
     && (1 <=? month) && (month <=? 12)
     && (1 <=? date) && (date <=? DaysInMonth leap (month - 1))
     && (hour <=? 23) && (min <=? 59) && (sec <=? 59)
  then
    let t := MakeDate (MakeDay year (month - 1) date)
                      (MakeTime hour min sec ms) in
    if valid_time t then Some t else None
  else None.

End Date.

(** ** [src/config/env.ts] and the start of the process *)

(** What [process.env.PORT || 3000] evaluates to. *)
Inductive PortSetting : Type :=
| PortText (s : string)
| PortNumber (n : Z).

(** The exported object.  The file holds a second variant of it that
    also exports [GOOGLE_GENERATIVE_AI_API_KEY]; [index.ts] never reads
    that field. *)
Record Env : Type := mkEnv {
  PORT : PortSetting;
  GOOGLE_API_KEY : option string;
  GOOGLE_GENERATIVE_AI_API_KEY : option string;
  NODE_ENV : string
}.

(** A string is falsy exactly when it is empty; [undefined] is falsy. *)
Definition truthy (v : option string) : bool :=
  match v with
  | Some s => negb (String.eqb s EmptyString)
  | None => false
  end.

(** [v || fallback], for a [v] that is a string or [undefined]. *)
Definition or_else {A} (v : option string) (present : string -> A)
    (fallback : A) : A :=
  match v with
  | Some s => if truthy v then present s else fallback
  | None => fallback
  end.

(** The default export of [config/env.ts], from [process.env] once
    [dotenv] has loaded the [.env] file into it. *)
Definition env (process_env : gmap string string) : Env :=
  {| PORT := or_else (process_env !! "PORT") PortText (PortNumber 3000);
     GOOGLE_API_KEY := process_env !! "GOOGLE_API_KEY";
     GOOGLE_GENERATIVE_AI_API_KEY :=
       process_env !! "GOOGLE_GENERATIVE_AI_API_KEY";
     NODE_ENV := or_else (process_env !! "NODE_ENV") id "development" |}.

(** A thrown value: an instance of [Error], or anything else. *)
Inductive Thrown : Type :=
| ThrownError (name message : string)
| ThrownOther (value : json).

(** [google(modelId)]; the argument is a string or [undefined]. *)
Record LanguageModel : Type := mkModel { modelId : option string }.

Definition google (modelId : option string) : LanguageModel := mkModel modelId.

(** The options of [serve]; [port_of] is the argument of [Number]. *)
Record ServeOptions : Type := mkServe {
  serve_model : LanguageModel;
  port_of : PortSetting
}.

(** The top level of [index.ts]: the check of the key, then the routes
    and [serve].  [inl] is an exception that ends the process before
    [serve] is reached, [inr] the server that listens. *)
Definition startup (process_env : gmap string string) : Thrown + ServeOptions :=
  let env := env process_env in
  if negb (truthy (GOOGLE_API_KEY env)) then
    inl (ThrownError "Error"
           "GOOGLE_API_KEY is not set in the environment variables")
  else
    let googleClient := google (GOOGLE_API_KEY env) in
    inr (mkServe googleClient (PORT env)).

(** ** The world around a request *)

Record GenerateObjectOptions : Type := mkOptions {
  opt_model : LanguageModel;
  opt_schema : ZodType;
  opt_system : string;
  opt_prompt : string;
  opt_temperature : QArith_base.Q
}.

(** [await generateObject(...)]: it resolves with an object of strings
    (its [object] field) or it throws. *)
Inductive GenerateObjectResult : Type :=
| Resolves (object : list (string * string))
| Rejects (reason : Thrown).

(** The collaborators of one request: the generative capability and the
    clock that [new Date()] reads. *)
Record World : Type := mkWorld {
  world_generateObject : GenerateObjectOptions -> GenerateObjectResult;
  world_now : Z
}.

(** What a request leaves behind besides its response. *)
Inductive Event : Type :=
| EvGenerateObject (options : GenerateObjectOptions)
| EvConsoleError (label : string) (error : Thrown).

(** Computations of the handler: they read the world, may throw, and
    append to the log of events. *)
Definition M (A : Type) : Type :=
  World -> list Event -> (Thrown + A) * list Event.

Definition ret {A} (a : A) : M A := fun _ log => (inr a, log).

Definition bind {A B} (m : M A) (k : A -> M B) : M B :=
  fun w log =>
    match m w log with
    | (inr a, log') => k a w log'
    | (inl e, log') => (inl e, log')
    end.

Definition throw {A} (e : Thrown) : M A := fun _ log => (inl e, log).

(** [try { body } catch (error) { handler }]. *)
Definition try_catch {A} (body : M A) (handler : Thrown -> M A) : M A :=
  fun w log =>
    match body w log with
    | (inr a, log') => (inr a, log')
    | (inl e, log') => handler e w log'
    end.

Notation "'do' x <- m ;; k" := (bind m (fun x => k))
  (at level 10, x name, m at level 99, k at level 200).
Notation "'run' m ;; k" := (bind m (fun _ => k))
  (at level 10, m at level 99, k at level 200).

Definition generateObject (options : GenerateObjectOptions)
  : M (list (string * string)) :=
  fun w log =>
    let log' := log ++ [EvGenerateObject options] in
    match world_generateObject w options with
    | Resolves object => (inr object, log')
    | Rejects reason => (inl reason, log')
    end.

Definition console_error (label : string) (error : Thrown) : M unit :=
  fun _ log => (inr tt, log ++ [EvConsoleError label error]).

(** [new Date().toISOString()]. *)
Definition new_Date_toISOString : M string :=
  fun w log => (inr (Date.toISOString (world_now w)), log).

(** [base.key]: a [TypeError] on [undefined] and [null]. *)
Definition get (base : option json) (key : string) : M (option json) :=
  match base with
  | None | Some JNull =>
      throw (ThrownError "TypeError"
               ("Cannot read properties of "
                +:+ ZodParsedType_name (getParsedType base)
                +:+ " (reading '" +:+ key +:+ "')"))
  | Some v => ret (member key v)
  end.

(** ** The request and the response *)

(** What [await c.req.json()] gives: the parsed body, or the exception of
    a body that is not JSON. *)
Record Request : Type := mkRequest { req_json : Thrown + json }.

Definition c_req_json (req : Request) : M json :=
  match req_json req with
  | inr body => ret body
  | inl e => throw e
  end.

Record Response : Type := mkResponse { status : Z; body : json }.

(** An object literal as [JSON.stringify] sends it: a member whose value
    is [undefined] is left out. *)
Definition object_literal (members : list (string * option json)) : json :=
  JObj (omap (fun '(k, v) => (fun w => (k, w)) <$> v) members).

(** [c.json(object, status)]. *)
Definition c_json (object : json) (status : Z) : Response :=
  mkResponse status object.

(** ** [POST /generate] *)

(** [/^3\.\d+\.\d+$/], between its anchors. *)
Definition openapi_version_re : RegExp :=
  ReCat (ReLit "3")
    (ReCat (ReLit ".")
       (ReCat (RePlus ReDigit)
          (ReCat (ReLit ".") (RePlus ReDigit)))).

Definition openApiSchema : ZodType :=
  z.object [
    ("openapi", z.regex openapi_version_re "Must be OpenAPI 3.x.x" z.string);
    ("info", z.object [
       ("title", z.string);
       ("version", z.string)
     ]);
    ("paths", z.record z.any);
    ("components", z.optional (z.object [
       ("schemas", z.optional (z.record z.any))
     ]))
  ].

Definition systemPrompt : string :=
  join newline [
    "You are an expert full-stack developer specializing in creating robust, production-ready backend services with Hono.js and TypeScript.";
    EmptyString;
    "**TASK:** Generate a complete Hono.js project from the provided OpenAPI 3.0 specification.";
    EmptyString;
    "**OUTPUT FORMAT:** Return a JSON object where:";
    "- Keys are file paths (e.g., " +:+ dquote +:+ "src/routes/users.ts"
      +:+ dquote +:+ ", " +:+ dquote +:+ "src/models/User.ts" +:+ dquote
      +:+ ")";
    "- Values are the complete file contents as strings";
    EmptyString;
    "**PROJECT STRUCTURE:**";
    "1. **src/index.ts**: Main entry point with Hono app initialization";
    "2. **src/routes/*.ts**: Route handlers organized by resource";
    "3. **src/models/*.ts**: TypeScript interfaces/types from OpenAPI schemas";
    "4. **src/middleware/*.ts**: Custom middleware if needed";
    "5. **src/utils/*.ts**: Utility functions";
    "6. **package.json**: Complete dependencies";
    "7. **tsconfig.json**: TypeScript configuration";
    "8. **README.md**: Setup and usage instructions";
    EmptyString;
    "**CODE REQUIREMENTS:**";
    "- Use TypeScript with proper typing";
    "- Implement proper error handling";
    "- Add input validation using Zod";
    "- Include proper HTTP status codes";
    "- Add JSDoc comments for functions";
    "- Use consistent code formatting";
    "- Include example request/response data in comments";
    EmptyString;
    "**DEPENDENCIES TO INCLUDE:**";
    "- hono (latest)";
    "- @hono/node-server";
    "- zod (for validation)";
    "- @types/node";
    "- typescript";
    "- tsx (for development)";
    EmptyString;
    "Generate production-ready, well-documented code that follows best practices."
  ].

(** The user prompt: the directive, an empty line, the validated
    specification pretty-printed with two spaces. *)
Definition userPrompt (openapiSpec : option json) : string :=
  "Generate a complete Hono.js project for this OpenAPI specification:"
  +:+ newline +:+ newline
  +:+ template_string (JSON_stringify openapiSpec 2).

(** The object of generated files as a JSON value. *)
Definition files_object (generatedFiles : list (string * string)) : json :=
  JObj (map (fun '(k, v) => (k, JStr v)) generatedFiles).

(** The options the handler passes to [generateObject]. *)
Definition generateObject_options (googleClient : LanguageModel)
    (openapiSpec : option json) : GenerateObjectOptions :=
  {| opt_model := googleClient;
     opt_schema := z.record2 z.string z.string;
     opt_system := systemPrompt;
     opt_prompt := userPrompt openapiSpec;
     (* Lower temperature for more consistent code generation *)
     opt_temperature := QArith_base.Qmake 1 10 |}.

(** The handler of [app.post('/generate', ...)]. *)
Definition generate_handler (googleClient : LanguageModel) (req : Request)
  : M Response :=
  try_catch
    ((* 1. Parse and validate the OpenAPI spec *)
     do body <- c_req_json req ;;
     match safeParse openApiSchema body with
     | SafeParseError error =>
         ret (c_json (object_literal [
                ("error", Some (JStr "Invalid OpenAPI specification"));
                ("details", Some (ZodError_format error))
              ]) 400)
     | SafeParseSuccess openapiSpec =>
         (* 3. Generate the project files *)
         do generatedFiles <-
           generateObject (generateObject_options googleClient openapiSpec) ;;
         (* 4. Add metadata to the response *)
         do info <- get openapiSpec "info" ;;
         do apiTitle <- get info "title" ;;
         do info' <- get openapiSpec "info" ;;
         do apiVersion <- get info' "version" ;;
         do generatedAt <- new_Date_toISOString ;;
         let response := object_literal [
           ("success", Some (JBool true));
           ("metadata", Some (object_literal [
              ("apiTitle", apiTitle);
              ("apiVersion", apiVersion);
              ("generatedAt", Some (JStr generatedAt));
              ("fileCount",
               Some (JNum (Z.of_nat (length (Object_keys generatedFiles)))));
              ("files", Some (JArr (map JStr (Object_keys generatedFiles))))
            ]));
           ("files", Some (files_object generatedFiles))
         ] in
         ret (c_json response 200)
     end)
    (fun error =>
       run console_error "Error generating code:" error ;;
       match error with
       | ThrownError _ message =>
           do timestamp <- new_Date_toISOString ;;
           ret (c_json (object_literal [
                  ("error", Some (JStr "Code generation failed"));
                  ("message", Some (JStr message));
                  ("timestamp", Some (JStr timestamp))
                ]) 500)
       | ThrownOther _ =>
           do timestamp <- new_Date_toISOString ;;
           ret (c_json (object_literal [
                  ("error",
                   Some (JStr "Unknown error occurred during code generation"));
                  ("timestamp", Some (JStr timestamp))
                ]) 500)
       end).

(** One request served in world [w]: the response (or the exception that
    escapes the handler) and the events. *)
Definition serve_generate (googleClient : LanguageModel) (w : World)
    (req : Request) : (Thrown + Response) * list Event :=
  generate_handler googleClient req w [].

(** The calls of [generateObject] among the events. *)
Definition generateObject_calls (log : list Event) : list GenerateObjectOptions :=
  omap (fun ev => match ev with
                  | EvGenerateObject options => Some options
                  | EvConsoleError _ _ => None
                  end) log.

(** ** The parser, unfolded

    [object_pairs] and [record_pairs] are the two loops inside [_parse]
    that build the pairs of an object and of a record. *)

Fixpoint object_pairs (path : list string) (props : list (string * json))
    (shape : list (string * ZodType)) : list ZodIssue * list ObjectPair :=
  match shape with
  | [] => ([], [])
  | (key, keyValidator) :: rest =>
      let '(issues, value) :=
        _parse keyValidator (path ++ [key]) (obj_get key props) in
      let '(issues', pairs) := object_pairs path props rest in
      (issues ++ issues',
       mkPair (OK (Some (JStr key))) value (obj_has key props) :: pairs)
  end.

Fixpoint record_pairs (keyType valueType : ZodType) (path : list string)
    (entries : list (string * json)) : list ZodIssue * list ObjectPair :=
  match entries with
  | [] => ([], [])
  | (key, v) :: rest =>
      let '(kissues, kr) := _parse keyType (path ++ [key]) (Some (JStr key)) in
      let '(vissues, vr) := _parse valueType (path ++ [key]) (Some v) in
      let '(issues', pairs) := record_pairs keyType valueType path rest in
      (kissues ++ vissues ++ issues', mkPair kr vr true :: pairs)
  end.

(** What a record of [z.any()] values gives back: the entries written one
    after the other into a fresh object, [__proto__] left out. *)
Definition record_copy_into (finalObject entries : list (string * json))
  : list (string * json) :=
  fold_left (fun acc '(k, v) =>
               if String.eqb k "__proto__" then acc else obj_set k v acc)
            entries finalObject.

Definition record_copy (entries : list (string * json)) : list (string * json) :=
  record_copy_into [] entries.

(** ** The structural contract in the words of the specification

    [openapi] is a string matching [^3\.\d+\.\d+$]; [info.title] and
    [info.version] are strings; [paths] is a mapping; [components], if
    present, is an object whose [schemas], if present, is a mapping. *)

Definition is_string (v : option json) : bool :=
  match v with Some (JStr _) => true | _ => false end.

Definition is_mapping (v : option json) : bool :=
  match v with Some (JObj _) => true | _ => false end.

Definition openapi_ok (v : option json) : bool :=
  match v with
  | Some (JStr s) => RegExp_test_anchored openapi_version_re s
  | _ => false
  end.

Definition info_ok (v : option json) : bool :=
  match v with
  | Some (JObj info) =>
      is_string (obj_get "title" info) && is_string (obj_get "version" info)
  | _ => false
  end.

Definition components_ok (v : option json) : bool :=
  match v with
  | None => true
  | Some (JObj components) =>
      match obj_get "schemas" components with
      | None => true
      | Some (JObj _) => true
      | Some _ => false
      end
  | Some _ => false
  end.

Definition structurally_valid (document : json) : bool :=
  match document with
  | JObj props =>
      openapi_ok (obj_get "openapi" props)
      && info_ok (obj_get "info" props)
      && is_mapping (obj_get "paths" props)
      && components_ok (obj_get "components" props)
  | _ => false
  end.

(** The declared fields of a document, in the order of the schema: what
    is left of it once every key the schema does not declare is
    dropped. *)
Definition declared_member (key : string) (v : option json)
  : list (string * json) :=
  match v with Some w => [(key, w)] | None => [] end.

Definition declared_mapping (v : option json) : option json :=
  match v with
  | Some (JObj entries) => Some (JObj (record_copy entries))
  | _ => None
  end.

Definition declared_info (v : option json) : option json :=
  match v with
  | Some (JObj info) =>
      Some (JObj (declared_member "title" (obj_get "title" info)
                  ++ declared_member "version" (obj_get "version" info)))
  | _ => None
  end.

Definition declared_components (v : option json) : option json :=
  match v with
  | Some (JObj components) =>
      Some (JObj (declared_member "schemas"
                    (declared_mapping (obj_get "schemas" components))))
  | _ => None
  end.

Definition declared_fields (document : json) : json :=
  match document with
  | JObj props =>
      JObj (declared_member "openapi" (obj_get "openapi" props)
            ++ declared_member "info" (declared_info (obj_get "info" props))
            ++ declared_member "paths" (declared_mapping (obj_get "paths" props))
            ++ declared_member "components"
                 (declared_components (obj_get "components" props)))
  | other => other
  end.

(** ** Predicates on issues *)

(** The path of [issue] starts with [path]. *)
Definition extends (path : list string) (issue : ZodIssue) : Prop :=
  exists suffix, issue_path issue = path ++ suffix.

(** The path of [issue] starts with a key other than [key]. *)
Definition under_other_key (key : string) (issue : ZodIssue) : Prop :=
  exists k suffix, issue_path issue = k :: suffix /\ k <> key.

(** ** The three responses in closed form *)

Definition success_response (title version : string) (now : Z)
    (generatedFiles : list (string * string)) : Response :=
  mkResponse 200 (JObj [
    ("success", JBool true);
    ("metadata", JObj [
       ("apiTitle", JStr title);
       ("apiVersion", JStr version);
       ("generatedAt", JStr (Date.toISOString now));
       ("fileCount", JNum (Z.of_nat (length (Object_keys generatedFiles))));
       ("files", JArr (map JStr (Object_keys generatedFiles)))
     ]);
    ("files", files_object generatedFiles)
  ]).

Definition failure_response (error : Thrown) (now : Z) : Response :=
  mkResponse 500 (JObj (
    match error with
    | ThrownError _ message =>
        [("error", JStr "Code generation failed");
         ("message", JStr message);
         ("timestamp", JStr (Date.toISOString now))]
    | ThrownOther _ =>
        [("error", JStr "Unknown error occurred during code generation");
         ("timestamp", JStr (Date.toISOString now))]
    end)).

Definition validation_response (error : ZodError) : Response :=
  mkResponse 400 (JObj [
    ("error", JStr "Invalid OpenAPI specification");
    ("details", ZodError_format error)
  ]).

(** ** The four ways a request ends

    [handled client w req (answer, log)]: the handler, run for [req] in
    the world [w], gives [answer] and leaves the events [log]. *)
Inductive handled (client : LanguageModel) (w : World) (req : Request)
  : (Thrown + Response) * list Event -> Prop :=
| handled_no_body e :
    req_json req = inl e ->
    handled client w req
      (inr (failure_response e (world_now w)),
       [EvConsoleError "Error generating code:" e])
| handled_invalid document error :
    req_json req = inr document ->
    safeParse openApiSchema document = SafeParseError error ->
    handled client w req (inr (validation_response error), [])
| handled_failed document openapiSpec reason :
    req_json req = inr document ->
    safeParse openApiSchema document = SafeParseSuccess openapiSpec ->
    world_generateObject w (generateObject_options client openapiSpec)
    = Rejects reason ->
    handled client w req
      (inr (failure_response reason (world_now w)),
       [EvGenerateObject (generateObject_options client openapiSpec);
        EvConsoleError "Error generating code:" reason])
| handled_generated document openapiSpec generatedFiles info title version :
    req_json req = inr document ->
    safeParse openApiSchema document = SafeParseSuccess openapiSpec ->
    world_generateObject w (generateObject_options client openapiSpec)
    = Resolves generatedFiles ->
    member "info" document = Some (JObj info) ->
    obj_get "title" info = Some (JStr title) ->
    obj_get "version" info = Some (JStr version) ->
    handled client w req
      (inr (success_response title version (world_now w) generatedFiles),
       [EvGenerateObject (generateObject_options client openapiSpec)]).

(** ** Vocabulary of the statements *)

(** The keys of a response envelope. *)
Definition envelope_keys (r : Response) : list string :=
  match body r with
  | JObj props => Object_keys props
  | _ => []
  end.

(** [r.metadata[key]]. *)
Definition metadata_member (key : string) (r : Response) : option json :=
  member "metadata" (body r) ≫= member key.

(** The capability resolves with JavaScript objects: no key twice. *)
Definition resolves_with_objects (w : World) : Prop :=
  forall options object,
    world_generateObject w options = Resolves object ->
    NoDup (Object_keys object).

(** The entries of an object as [JSON.parse] builds it, without a
    [__proto__] key. *)
Definition plain_record (entries : list (string * json)) : bool :=
  bool_decide (NoDup (Object_keys entries))
  && bool_decide ("__proto__" ∉ Object_keys entries).

(** A document that holds the declared fields only, in the order of the
    schema. *)
Definition declared_only (document : json) : Prop :=
  exists openapi title version paths components,
    document
    = JObj ([("openapi", JStr openapi);
             ("info", JObj [("title", JStr title); ("version", JStr version)]);
             ("paths", JObj paths)] ++ components)
    /\ plain_record paths = true
    /\ (components = []
        \/ components = [("components", JObj [])]
        \/ exists schemas,
             components = [("components", JObj [("schemas", JObj schemas)])]
             /\ plain_record schemas = true).

(** ** Sample documents and worlds *)

(** A well-formed minimal specification without any path. *)
Definition minimal_document : json :=
  JObj [("openapi", JStr "3.0.0");
        ("info", JObj [("title", JStr "Blog"); ("version", JStr "1.0.0")]);
        ("paths", JObj [])].

(** A Swagger 2.0 document. *)
Definition swagger2_document : json :=
  JObj [("openapi", JStr "2.0");
        ("info", JObj [("title", JStr "X"); ("version", JStr "1")]);
        ("paths", JObj [])].

(** The minimal specification with a description next to its title. *)
Definition described_document : json :=
  JObj [("openapi", JStr "3.0.0");
        ("info", JObj [("title", JStr "Blog"); ("version", JStr "1.0.0");
                       ("description", JStr "A simple blog API")]);
        ("paths", JObj [])].

(** The minimal specification with [components: null]. *)
Definition null_components_document : json :=
  JObj [("openapi", JStr "3.0.0");
        ("info", JObj [("title", JStr "Blog"); ("version", JStr "1.0.0")]);
        ("paths", JObj []);
        ("components", JNull)].

(** 2026-11-03T05:20:00.123Z *)
Definition sample_now : Z := 1793683200123.

Definition sample_files : list (string * string) :=
  [("package.json", "{}"); ("src/index.ts", "// entry")].

(** A capability that returns two files. *)
Definition stub_world : World :=
  mkWorld (fun _ => Resolves sample_files) sample_now.

(** A capability that fails to authenticate. *)
Definition unauthenticated_world : World :=
  mkWorld (fun _ => Rejects (ThrownError "Error" "API key not valid"))
          sample_now.

(** A capability that throws something that is no [Error]. *)
Definition throwing_world : World :=
  mkWorld (fun _ => Rejects (ThrownOther (JStr "quota"))) sample_now.

Definition sample_client : LanguageModel := google (Some "sample-key").

(** ** The other routes of [index.ts] *)

(** A handler run on its own in the world [w]. *)
Definition run_handler (handler : M Response) (w : World)
  : (Thrown + Response) * list Event :=
  handler w [].

(** [app.get('/', ...)]. *)
Definition root_handler : M Response :=
  ret (c_json (object_literal [
         ("message", Some (JStr "Welcome to the Auto Backend API"))
       ]) 200).

(** [app.get('/health', ...)]. *)
Definition health_handler (env : Env) : M Response :=
  do timestamp <- new_Date_toISOString ;;
  ret (c_json (object_literal [
         ("status", Some (JStr "healthy"));
         ("timestamp", Some (JStr timestamp));
         ("environment", Some (JStr (NODE_ENV env)))
       ]) 200).

(** The [$ref] to a schema of the sample. *)
Definition schema_ref (name : string) : json :=
  JObj [("$ref", JStr ("#/components/schemas/" +:+ name))].

Definition json_content (schema : json) : json :=
  JObj [("application/json", JObj [("schema", schema)])].

Definition string_type : json := JObj [("type", JStr "string")].

(** [sampleSpec], the document of [app.get('/sample-spec', ...)]. *)
Definition sampleSpec : json :=
  JObj [
    ("openapi", JStr "3.0.0");
    ("info", JObj [
       ("title", JStr "Sample Blog API");
       ("version", JStr "1.0.0");
       ("description", JStr "A simple blog API for testing")
     ]);
    ("paths", JObj [
       ("/posts", JObj [
          ("get", JObj [
             ("summary", JStr "Get all posts");
             ("responses", JObj [
                ("200", JObj [
                   ("description", JStr "List of posts");
                   ("content", json_content (JObj [
                      ("type", JStr "array");
                      ("items", schema_ref "Post")
                    ]))
                 ])
              ])
           ]);
          ("post", JObj [
             ("summary", JStr "Create a new post");
             ("requestBody", JObj [
                ("content", json_content (schema_ref "CreatePost"))
              ]);
             ("responses", JObj [
                ("201", JObj [
                   ("description", JStr "Post created");
                   ("content", json_content (schema_ref "Post"))
                 ])
              ])
           ])
        ]);
       ("/posts/{id}", JObj [
          ("get", JObj [
             ("summary", JStr "Get post by ID");
             ("parameters", JArr [
                JObj [
                  ("name", JStr "id");
                  ("in", JStr "path");
                  ("required", JBool true);
                  ("schema", string_type)
                ]
              ]);
             ("responses", JObj [
                ("200", JObj [
                   ("description", JStr "Post details");
                   ("content", json_content (schema_ref "Post"))
                 ])
              ])
           ])
        ])
     ]);
    ("components", JObj [
       ("schemas", JObj [
          ("Post", JObj [
             ("type", JStr "object");
             ("properties", JObj [
                ("id", string_type);
                ("title", string_type);
                ("content", string_type);
                ("author", string_type);
                ("createdAt", JObj [
                   ("type", JStr "string");
                   ("format", JStr "date-time")
                 ])
              ])
           ]);
          ("CreatePost", JObj [
             ("type", JStr "object");
             ("required", JArr [JStr "title"; JStr "content"; JStr "author"]);
             ("properties", JObj [
                ("title", string_type);
                ("content", string_type);
                ("author", string_type)
              ])
           ])
        ])
     ])
  ].

Definition sample_spec_handler : M Response :=
  ret (c_json sampleSpec 200).

(** [app.notFound(...)]. *)
Definition notFound_handler : M Response :=
  ret (c_json (object_literal [("error", Some (JStr "Route not found"))]) 404).

(** [app.onError((err, c) => ...)], for the [Error] that reaches it. *)
Definition onError_handler (name message : string) : M Response :=
  run console_error "Unhandled error:" (ThrownError name message) ;;
  do timestamp <- new_Date_toISOString ;;
  ret (c_json (object_literal [
         ("error", Some (JStr "Internal server error"));
         ("message", Some (JStr message));
         ("timestamp", Some (JStr timestamp))
       ]) 500).

(** ** More vocabulary *)

(** The keys [openApiSchema] declares at the top of a document. *)
Definition declared_keys : list string :=
  ["openapi"; "info"; "paths"; "components"].

(** Does the field [key] of a document meet the contract?  A key the
    schema does not declare is under no contract. *)
Definition field_ok (key : string) (props : list (string * json)) : bool :=
  if String.eqb key "openapi" then openapi_ok (obj_get "openapi" props)
  else if String.eqb key "info" then info_ok (obj_get "info" props)
  else if String.eqb key "paths" then is_mapping (obj_get "paths" props)
  else if String.eqb key "components" then
    components_ok (obj_get "components" props)
  else true.

(** The errors logged with [console.error]. *)
Definition console_errors (log : list Event) : list Thrown :=
  omap (fun ev => match ev with
                  | EvConsoleError _ error => Some error
                  | EvGenerateObject _ => None
                  end) log.

(** The path of [issue] starts with [key]. *)
Definition under_key (key : string) (issue : ZodIssue) : Prop :=
  exists rest, issue_path issue = key :: rest.

(** The sample specification once validated: its [info] has lost the
    description. *)
Definition sampleSpec_validated : json :=
  JObj (obj_set "info"
          (JObj [("title", JStr "Sample Blog API"); ("version", JStr "1.0.0")])
          (match sampleSpec with JObj props => props | _ => [] end)).

(** The minimal specification with its keys in another order and a
    [servers] list. *)
Definition reordered_document : json :=
  JObj [("servers", JArr []);
        ("paths", JObj []);
        ("info", JObj [("title", JStr "Blog"); ("version", JStr "1.0.0")]);
        ("openapi", JStr "3.0.0")].

(** The body of a request that is no JSON text. *)
Definition malformed_request : Request :=
  mkRequest (inl (ThrownError "SyntaxError" "Unexpected end of JSON input")).

(** * Proofs *)

(** ** Objects *)

Lemma obj_get_obj_set_eq key v props :
  obj_get key (obj_set key v props) = Some v.
Proof.
  induction props as [|[k w] rest IH]; simpl.
  - by rewrite String.eqb_refl.
  - destruct (String.eqb k key) eqn:E; simpl; rewrite E; done.
Qed.

Lemma obj_get_obj_set_ne key key' v props :
  key ≠ key' → obj_get key (obj_set key' v props) = obj_get key props.
Proof.
  intros Hne. induction props as [|[k w] rest IH]; simpl.
  - destruct (String.eqb_spec key' key); congruence.
  - destruct (String.eqb_spec k key'); simpl.
    + subst. destruct (String.eqb_spec key' key); congruence.
    + by rewrite IH.
Qed.

Lemma obj_set_fresh key v props :
  key ∉ Object_keys props → obj_set key v props = props ++ [(key, v)].
Proof.
  induction props as [|[k w] rest IH]; [done|].
  cbn [Object_keys map fst obj_set app]. rewrite not_elem_of_cons.
  intros [Hne Hrest]. destruct (String.eqb_spec k key); [congruence|].
  by rewrite IH.
Qed.

(** Copying the entries of an object built by [JSON.parse] into a fresh
    object gives the same entries in the same order. *)
Lemma record_copy_into_plain entries : ∀ finalObject,
  NoDup (Object_keys finalObject ++ Object_keys entries) →
  "__proto__" ∉ Object_keys entries →
  record_copy_into finalObject entries = finalObject ++ entries.
Proof.
  induction entries as [|[k v] rest IH]; intros finalObject Hnodup Hproto.
  - by rewrite app_nil_r.
  - cbn [Object_keys map fst] in *. apply not_elem_of_cons in Hproto as [Hk Hrest].
    unfold record_copy_into. cbn [fold_left].
    destruct (String.eqb_spec k "__proto__"); [congruence|].
    apply NoDup_app in Hnodup as (Hfinal & Hdisjoint & Hentries).
    apply NoDup_cons in Hentries as [Hfresh Hentries].
    rewrite obj_set_fresh.
    2:{ intros Hin. apply (Hdisjoint k Hin). by left. }
    fold (record_copy_into (finalObject ++ [(k, v)]) rest).
    rewrite IH; [by rewrite <- app_assoc| |done].
    unfold Object_keys in *. rewrite map_app. cbn [map fst].
    rewrite <- app_assoc. cbn [app]. apply NoDup_app. split_and!; [done| |].
    + intros x Hx Hin. apply (Hdisjoint x Hx). by rewrite elem_of_cons in *.
    + by apply NoDup_cons.
Qed.


Lemma record_copy_plain entries :
  plain_record entries = true → record_copy entries = entries.
Proof.
  unfold plain_record. rewrite andb_true_iff.
  intros [Hnodup Hproto].
  apply bool_decide_eq_true in Hnodup, Hproto.
  by apply record_copy_into_plain.
Qed.

Lemma remove_dups_NoDup (l : list string) : NoDup l → remove_dups l = l.
Proof.
  induction 1 as [|x l Hx _ IH]; [done|].
  cbn [remove_dups]. rewrite IH. by destruct (decide_rel elem_of x l).
Qed.

Lemma Object_keys_files_object generatedFiles :
  Object_keys
    (map (fun '(k, v) => (k, JStr v)) generatedFiles) = Object_keys generatedFiles.
Proof.
  unfold Object_keys. rewrite map_map. apply map_ext. by intros [k v].
Qed.

(** ** The matcher agrees with the language of the expression *)

Lemma append_empty_inv s1 s2 :
  s1 +:+ s2 = EmptyString → s1 = EmptyString ∧ s2 = EmptyString.
Proof. by destruct s1. Qed.

Lemma nullable_spec r : nullable r = true ↔ lang r EmptyString.
Proof.
  split.
  - induction r as [| | | |r1 IH1 r2 IH2|r IH]; cbn [nullable]; try done.
    + intros _. constructor.
    + rewrite andb_true_iff. intros [H1 H2].
      change EmptyString with (EmptyString +:+ EmptyString).
      constructor; auto.
    + intros _. constructor.
  - remember EmptyString as s eqn:Es. induction 1; try done.
    apply append_empty_inv in Es as [-> ->].
    cbn [nullable]. rewrite andb_true_iff. auto.
Qed.

Lemma deriv_sound c r : ∀ r' s, r' ∈ deriv c r → lang r' s → lang r (String c s).
Proof.
  induction r as [| |d| |r1 IH1 r2 IH2|r IH]; intros r' s; cbn [deriv].
  - by rewrite elem_of_nil.
  - by rewrite elem_of_nil.
  - destruct (Ascii.eqb_spec c d) as [->|]; [|by rewrite elem_of_nil].
    rewrite list_elem_of_singleton. intros -> H. inversion H. constructor.
  - destruct (is_digit c) eqn:Hc; [|by rewrite elem_of_nil].
    rewrite list_elem_of_singleton. intros -> H. inversion H. by constructor.
  - rewrite elem_of_app, list_elem_of_fmap.
    intros [(r1' & -> & Hin)|Hin] H.
    + inversion H as [| | |? ? s1 s2 H1 H2| |]; subst.
      change (String c (s1 +:+ s2)) with (String c s1 +:+ s2).
      constructor; eauto.
    + destruct (nullable r1) eqn:Hn; [|by rewrite elem_of_nil in Hin].
      change (String c s) with (EmptyString +:+ String c s).
      constructor; [by apply nullable_spec|eauto].
  - rewrite list_elem_of_fmap. intros (r1' & -> & Hin) H.
    inversion H as [| | |? ? s1 s2 H1 H2| |]; subst.
    change (String c (s1 +:+ s2)) with (String c s1 +:+ s2).
    constructor; eauto.
Qed.

Lemma deriv_complete c r s0 :
  lang r s0 → ∀ s, s0 = String c s → ∃ r', r' ∈ deriv c r ∧ lang r' s.
Proof.
  induction 1 as [|d|d Hd|r1 r2 s1 s2 H1 IH1 H2 IH2| |r s1 s2 H1 IH1 H2 IH2];
    intros s Es; try done.
  - injection Es as -> <-. exists ReEps. cbn [deriv].
    rewrite Ascii.eqb_refl. split; [by left|constructor].
  - injection Es as -> <-. exists ReEps. cbn [deriv]. rewrite Hd.
    split; [by left|constructor].
  - destruct s1 as [|c1 s1'].
    + destruct (IH2 s Es) as (r' & Hin & Hr'). exists r'. split; [|done].
      cbn [deriv]. rewrite elem_of_app. right.
      by rewrite (proj2 (nullable_spec r1) H1).
    + injection Es as -> <-. destruct (IH1 s1' eq_refl) as (r' & Hin & Hr').
      exists (ReCat r' r2). split; [|by constructor].
      cbn [deriv]. rewrite elem_of_app. left.
      apply list_elem_of_fmap. by exists r'.
  - destruct s1 as [|c1 s1'].
    + by apply IH2.
    + injection Es as -> <-. destruct (IH1 s1' eq_refl) as (r' & Hin & Hr').
      exists (ReCat r' (ReStar r)). split; [|by constructor].
      cbn [deriv]. apply list_elem_of_fmap. by exists r'.
Qed.

Lemma matches_any_spec s : ∀ rs,
  matches_any rs s = true ↔ ∃ r, r ∈ rs ∧ lang r s.
Proof.
  induction s as [|c s IH]; intros rs; cbn [matches_any].
  - rewrite existsb_exists. split.
    + intros (r & Hin & Hn). exists r. split; [by apply list_elem_of_In|].
      by apply nullable_spec.
    + intros (r & Hin & Hr). exists r. split; [by apply list_elem_of_In|].
      by apply nullable_spec.
  - rewrite IH. split.
    + intros (r' & Hin & Hr'). apply list_elem_of_In, in_flat_map in Hin
        as (r & Hr & Hin). exists r. split; [by apply list_elem_of_In|].
      eapply deriv_sound; [by apply list_elem_of_In|done].
    + intros (r & Hin & Hr).
      destruct (deriv_complete c r _ Hr s eq_refl) as (r' & Hin' & Hr').
      exists r'. split; [|done]. apply list_elem_of_In, in_flat_map.
      exists r. split; by apply list_elem_of_In.
Qed.

Lemma RegExp_test_anchored_spec r s :
  RegExp_test_anchored r s = true ↔ lang r s.
Proof.
  unfold RegExp_test_anchored. rewrite matches_any_spec. split.
  - intros (r' & Hin & Hr'). by apply list_elem_of_singleton in Hin as ->.
  - intros Hr. exists r. split; [by apply list_elem_of_singleton|done].
Qed.

Lemma lang_digits s : lang (ReStar ReDigit) s ↔ all_digits s = true.
Proof.
  split.
  - remember (ReStar ReDigit) as r eqn:Er.
    induction 1 as [| | | | |r s1 s2 H1 _ H2 IH2]; try done.
    injection Er as ->. inversion H1 as [| |c Hc| | |]; subst.
    change (all_digits (String c s2) = true). cbn [all_digits].
    rewrite Hc. by apply IH2.
  - induction s as [|c s IH]; cbn [all_digits]; [constructor|].
    rewrite andb_true_iff. intros [Hc Hs].
    change (String c s) with (String c EmptyString +:+ s).
    constructor; [by constructor|by apply IH].
Qed.

Lemma lang_plus_digits s :
  lang (RePlus ReDigit) s ↔ s ≠ EmptyString ∧ all_digits s = true.
Proof.
  unfold RePlus. split.
  - inversion 1 as [| | |? ? s1 s2 H1 H2| |]; subst.
    inversion H1 as [| |c Hc| | |]; subst. apply lang_digits in H2.
    split; [done|]. change (all_digits (String c s2) = true).
    cbn [all_digits]. by rewrite Hc.
  - intros [Hne Hs]. destruct s as [|c s]; [done|].
    cbn [all_digits] in Hs. apply andb_true_iff in Hs as [Hc Hs].
    change (String c s) with (String c EmptyString +:+ s).
    constructor; [by constructor|by apply lang_digits].
Qed.

(** [/^3\.\d+\.\d+$/] accepts exactly ["3." minor "." patch] with two
    non-empty runs of decimal digits. *)
Lemma openapi_version_re_spec s :
  RegExp_test_anchored openapi_version_re s = true
  ↔ ∃ minor patch,
      s = "3." +:+ minor +:+ "." +:+ patch
      ∧ minor ≠ EmptyString ∧ all_digits minor = true
      ∧ patch ≠ EmptyString ∧ all_digits patch = true.
Proof.
  rewrite RegExp_test_anchored_spec. unfold openapi_version_re. split.
  - inversion 1 as [| | |? ? a1 s1 Ha1 H1| |]; subst.
    inversion Ha1; subst.
    inversion H1 as [| | |? ? a2 s2 Ha2 H2| |]; subst.
    inversion Ha2; subst.
    inversion H2 as [| | |? ? minor s3 Hminor H3| |]; subst.
    inversion H3 as [| | |? ? a4 patch Ha4 Hpatch| |]; subst.
    inversion Ha4; subst.
    apply lang_plus_digits in Hminor as [??], Hpatch as [??].
    by exists minor, patch.
  - intros (minor & patch & -> & Hm1 & Hm2 & Hp1 & Hp2).
    change ("3." +:+ minor +:+ "." +:+ patch)
      with ("3" +:+ "." +:+ minor +:+ "." +:+ patch).
    repeat first [ apply lang_cat | apply lang_lit ];
      by apply lang_plus_digits.
Qed.

Example version_3_0_0_matches :
  RegExp_test_anchored openapi_version_re "3.0.0" = true.
Proof. reflexivity. Qed.

Example version_2_0_does_not_match :
  RegExp_test_anchored openapi_version_re "2.0" = false.
Proof. reflexivity. Qed.

Example version_4_0_0_does_not_match :
  RegExp_test_anchored openapi_version_re "4.0.0" = false.
Proof. reflexivity. Qed.

(** ** The parser on each field of the schema *)

Lemma _parse_object shape path props :
  _parse (ZodObject shape) path (Some (JObj props))
  = (fst (object_pairs path props shape),
     mergeObjectSync false (snd (object_pairs path props shape))).
Proof.
  simpl. 
  match goal with |- (fst ?a, _) = (fst ?b, _) => assert (a = b) as -> end; [|done].
  induction shape as [|[key kv] rest IH]; [done|].
  simpl. rewrite IH. done.
Qed.

Lemma _parse_record keyType valueType path props :
  _parse (ZodRecord keyType valueType) path (Some (JObj props))
  = (fst (record_pairs keyType valueType path props),
     mergeObjectSync false (snd (record_pairs keyType valueType path props))).
Proof.
  simpl.
  match goal with |- (fst ?a, _) = (fst ?b, _) => assert (a = b) as -> end; [|done].
  induction props as [|[key v] rest IH]; [done|].
  simpl. rewrite IH. done.
Qed.

Lemma _parse_string path data :
  _parse z.string path data
  = match data with
    | Some (JStr s) => ([], OK data)
    | _ => ([invalid_type_issue path PT_string (getParsedType data)], INVALID)
    end.
Proof. by destruct data as [[]|]. Qed.

Lemma _parse_optional innerType path data :
  _parse (z.optional innerType) path data
  = match data with
    | None => ([], OK None)
    | Some _ => _parse innerType path data
    end.
Proof. by destruct data. Qed.

Lemma _parse_openapi_field path data :
  _parse (z.regex openapi_version_re "Must be OpenAPI 3.x.x" z.string) path data
  = match data with
    | Some (JStr s) =>
        if RegExp_test_anchored openapi_version_re s then ([], OK data)
        else ([mkIssue invalid_string_regex path "Must be OpenAPI 3.x.x"],
              DIRTY data)
    | _ => ([invalid_type_issue path PT_string (getParsedType data)], INVALID)
    end.
Proof.
  destruct data as [[]|]; try done.
  unfold z.regex, z.string. cbn [app _parse run_string_checks].
  by destruct (RegExp_test_anchored _ _).
Qed.

Lemma openapi_field_issue path data :
  openapi_ok data = false →
  ∃ issue,
    fst (_parse (z.regex openapi_version_re "Must be OpenAPI 3.x.x" z.string)
           path data) = [issue]
    ∧ issue_path issue = path.
Proof.
  intros Hok. rewrite _parse_openapi_field. unfold openapi_ok in Hok.
  destruct data as [[| | |s| |]|]; try by eexists.
  rewrite Hok. by eexists.
Qed.

Lemma record_pairs_any path entries :
  record_pairs (ZodString []) ZodAny path entries
  = ([], map (fun '(k, v) => mkPair (OK (Some (JStr k))) (OK (Some v)) true)
             entries).
Proof.
  induction entries as [|[k v] rest IH]; [done|].
  simpl. by rewrite IH.
Qed.

Lemma mergeObjectSync_loop_any dirty finalObject entries :
  mergeObjectSync_loop dirty finalObject
    (map (fun '(k, v) => mkPair (OK (Some (JStr k))) (OK (Some v)) true) entries)
  = let result := Some (JObj (record_copy_into finalObject entries)) in
    if dirty then DIRTY result else OK result.
Proof.
  revert dirty finalObject.
  induction entries as [|[k v] rest IH]; intros dirty finalObject; [done|].
  cbn [map mergeObjectSync_loop pair_key pair_value property_key].
  rewrite IH. unfold record_copy_into. cbn [fold_left].
  by rewrite !orb_false_r.
Qed.

Lemma _parse_record_any path data :
  _parse (z.record z.any) path data
  = match data with
    | Some (JObj entries) => ([], OK (Some (JObj (record_copy entries))))
    | _ => ([invalid_type_issue path PT_object (getParsedType data)], INVALID)
    end.
Proof.
  destruct data as [[]|]; try done.
  unfold z.record, z.any. rewrite _parse_record, record_pairs_any.
  unfold mergeObjectSync. cbn [fst snd]. by rewrite mergeObjectSync_loop_any.
Qed.

Lemma snd_parse_info path data :
  snd (_parse (z.object [("title", z.string); ("version", z.string)]) path data)
  = if info_ok data then OK (declared_info data) else INVALID.
Proof.
  destruct data as [[]|]; try done.
  unfold z.object. rewrite _parse_object. cbn [object_pairs].
  rewrite !_parse_string. unfold info_ok, declared_info.
  by destruct (obj_get "title" props) as [[]|],
              (obj_get "version" props) as [[]|].
Qed.

Lemma snd_parse_components path data :
  snd (_parse (z.optional (z.object [("schemas", z.optional (z.record z.any))]))
         path data)
  = if components_ok data then OK (declared_components data) else INVALID.
Proof.
  rewrite _parse_optional.
  destruct data as [[]|]; try done.
  unfold z.object. rewrite _parse_object. cbn [object_pairs].
  rewrite _parse_optional.
  unfold components_ok, declared_components, declared_mapping.
  destruct (obj_get "schemas" props) as [v|] eqn:E; [|done].
  rewrite _parse_record_any. by destruct v.
Qed.

(** The validator and the structural contract agree, and a valid
    document is answered with its declared fields. *)
Lemma snd_parse_document document :
  match snd (_parse openApiSchema [] (Some document)) with
  | OK v => structurally_valid document = true
            ∧ v = Some (declared_fields document)
  | _ => structurally_valid document = false
  end.
Proof.
  destruct document as [| | | | |props]; try done.
  unfold openApiSchema, z.object at 1. rewrite _parse_object.
  cbn [object_pairs app].
  destruct (_parse (z.regex _ _ _) _ _) as [i1 r1] eqn:E1.
  destruct (_parse (z.object _) _ _) as [i2 r2] eqn:E2.
  destruct (_parse (z.record _) _ _) as [i3 r3] eqn:E3.
  destruct (_parse (z.optional _) _ _) as [i4 r4] eqn:E4.
  apply (f_equal snd) in E1, E2, E3, E4.
  rewrite _parse_openapi_field in E1. rewrite snd_parse_info in E2.
  rewrite _parse_record_any in E3. rewrite snd_parse_components in E4.
  cbn [snd] in *. subst r1 r2 r3 r4.
  unfold structurally_valid, openapi_ok, is_mapping, declared_fields,
    declared_mapping.
  destruct (obj_get "openapi" props) as [[| | |s| |]|]; cbn [snd];
    try destruct (RegExp_test_anchored _ s); cbn [snd];
    destruct (info_ok _), (declared_info _);
    destruct (obj_get "paths" props) as [[]|]; cbn [snd];
    destruct (components_ok _), (declared_components _); done.
Qed.

Lemma safeParse_openApiSchema document :
  safeParse openApiSchema document
  = if structurally_valid document
    then SafeParseSuccess (Some (declared_fields document))
    else SafeParseError
           (mkZodError (fst (_parse openApiSchema [] (Some document)))).
Proof.
  unfold safeParse. pose proof (snd_parse_document document) as H.
  destruct (_parse openApiSchema [] (Some document)) as [i [|v|v]];
    cbn [fst snd] in *.
  - by rewrite H.
  - destruct H as [-> ->]. done.
  - by rewrite H.
Qed.

Lemma valid_document_shape document :
  structurally_valid document = true →
  ∃ props openapi info title version paths,
    document = JObj props
    ∧ obj_get "openapi" props = Some (JStr openapi)
    ∧ RegExp_test_anchored openapi_version_re openapi = true
    ∧ obj_get "info" props = Some (JObj info)
    ∧ obj_get "title" info = Some (JStr title)
    ∧ obj_get "version" info = Some (JStr version)
    ∧ obj_get "paths" props = Some (JObj paths)
    ∧ components_ok (obj_get "components" props) = true
    ∧ declared_fields document
      = JObj ([("openapi", JStr openapi);
               ("info", JObj [("title", JStr title); ("version", JStr version)]);
               ("paths", JObj (record_copy paths))]
              ++ declared_member "components"
                   (declared_components (obj_get "components" props))).
Proof.
  destruct document as [| | | | |props]; try done.
  cbn [structurally_valid declared_fields]. rewrite !andb_true_iff.
  intros [[[Hopenapi Hinfo] Hpaths] Hcomponents].
  unfold openapi_ok, info_ok, is_mapping in *.
  destruct (obj_get "openapi" props) as [[| | |openapi| |]|] eqn:Eo; try done.
  destruct (obj_get "info" props) as [[| | | | |info]|] eqn:Ei; try done.
  destruct (obj_get "paths" props) as [[| | | | |paths]|] eqn:Ep; try done.
  apply andb_true_iff in Hinfo as [Htitle Hversion].
  cbn [declared_info].
  destruct (obj_get "title" info) as [[| | |title| |]|] eqn:Et; try done.
  destruct (obj_get "version" info) as [[| | |version| |]|] eqn:Ev; try done.
  exists props, openapi, info, title, version, paths. by split_and!.
Qed.

Lemma declared_fields_declared_only document :
  declared_only document → declared_fields document = document.
Proof.
  intros (openapi & title & version & paths & components & -> & Hpaths & Hc).
  cbn. rewrite (record_copy_plain paths Hpaths).
  destruct Hc as [->|[->|(schemas & -> & Hschemas)]]; cbn; try done.
  by rewrite (record_copy_plain schemas Hschemas).
Qed.

(** ** The paths of the issues *)

Lemma ZodType_induction (P : ZodType → Prop) :
  (∀ checks, P (ZodString checks)) →
  P ZodAny →
  (∀ shape, Forall (fun kv => P (snd kv)) shape → P (ZodObject shape)) →
  (∀ keyType valueType, P keyType → P valueType →
                        P (ZodRecord keyType valueType)) →
  (∀ innerType, P innerType → P (ZodOptional innerType)) →
  ∀ schema, P schema.
Proof.
  intros Hs Ha Ho Hr Hopt. fix IH 1. intros [checks| |shape|k v|inner].
  - apply Hs.
  - apply Ha.
  - apply Ho. induction shape as [|[key kv] rest IHs]; constructor.
    + apply IH.
    + apply IHs.
  - apply Hr; apply IH.
  - apply Hopt, IH.
Qed.

Lemma extends_app path key issue :
  extends (path ++ [key]) issue → extends path issue.
Proof.
  intros [suffix H]. exists (key :: suffix). by rewrite H, <- app_assoc.
Qed.

Lemma run_string_checks_paths path s checks :
  Forall (extends path) (fst (run_string_checks path s checks)).
Proof.
  induction checks as [|[re msg] rest IH]; cbn [run_string_checks]; [constructor|].
  destruct (run_string_checks path s rest) as [issues dirty].
  destruct (RegExp_test_anchored re s); cbn [fst] in *; [done|].
  constructor; [|done]. exists []. by rewrite app_nil_r.
Qed.

Lemma invalid_type_issue_extends path expected received :
  Forall (extends path) [invalid_type_issue path expected received].
Proof. repeat constructor. exists []. by rewrite app_nil_r. Qed.

(** Every issue raised while parsing at [path] lies at or below [path]. *)
Lemma _parse_issue_paths schema :
  ∀ path data, Forall (extends path) (fst (_parse schema path data)).
Proof.
  induction schema as [checks| |shape IH|keyType valueType IHk IHv|inner IH]
    using ZodType_induction; intros path data.
  - destruct data as [[| | |s| |]|];
      try apply invalid_type_issue_extends.
    cbn [_parse]. pose proof (run_string_checks_paths path s checks) as H.
    by destruct (run_string_checks path s checks).
  - constructor.
  - destruct data as [[| | | | |props]|];
      try apply invalid_type_issue_extends.
    rewrite _parse_object. cbn [fst].
    induction IH as [|[key kv] rest Hkv _ IHrest]; [constructor|].
    cbn [object_pairs].
    specialize (Hkv (path ++ [key]) (obj_get key props)). cbn [snd] in Hkv.
    destruct (_parse kv _ _) as [issues value].
    destruct (object_pairs path props rest) as [issues' pairs].
    cbn [fst] in *. apply Forall_app. split; [|done].
    eapply Forall_impl; [exact Hkv|]. intros issue. apply extends_app.
  - destruct data as [[| | | | |props]|];
      try apply invalid_type_issue_extends.
    rewrite _parse_record. cbn [fst].
    induction props as [|[key v] rest IHrest]; [constructor|].
    cbn [record_pairs].
    specialize (IHk (path ++ [key]) (Some (JStr key))).
    specialize (IHv (path ++ [key]) (Some v)).
    destruct (_parse keyType _ _) as [kissues kr].
    destruct (_parse valueType _ _) as [vissues vr].
    destruct (record_pairs keyType valueType path rest) as [issues' pairs].
    cbn [fst] in *. rewrite !Forall_app. split_and!; [| |done].
    + eapply Forall_impl; [exact IHk|]. intros issue. apply extends_app.
    + eapply Forall_impl; [exact IHv|]. intros issue. apply extends_app.
  - destruct data as [v|]; [|constructor]. apply IH.
Qed.

Lemma extends_under_other key key' issue :
  key' ≠ key → extends [key'] issue → under_other_key key issue.
Proof. intros Hne [suffix H]. by exists key', suffix. Qed.

Lemma document_issues props :
  ∃ others,
    fst (_parse openApiSchema [] (Some (JObj props)))
    = fst (_parse (z.regex openapi_version_re "Must be OpenAPI 3.x.x" z.string)
             ["openapi"] (obj_get "openapi" props)) ++ others
    ∧ Forall (under_other_key "openapi") others.
Proof.
  unfold openApiSchema, z.object at 1. rewrite _parse_object.
  cbn [object_pairs app].
  pose proof (_parse_issue_paths
                (z.object [("title", z.string); ("version", z.string)])
                ["info"] (obj_get "info" props)) as H2.
  pose proof (_parse_issue_paths (z.record z.any)
                ["paths"] (obj_get "paths" props)) as H3.
  pose proof (_parse_issue_paths
                (z.optional
                   (z.object [("schemas", z.optional (z.record z.any))]))
                ["components"] (obj_get "components" props)) as H4.
  destruct (_parse (z.regex _ _ _) _ _) as [i1 r1].
  destruct (_parse (z.object _) _ _) as [i2 r2].
  destruct (_parse (z.record _) _ _) as [i3 r3].
  destruct (_parse (z.optional _) _ _) as [i4 r4].
  cbn [fst] in *. exists (i2 ++ i3 ++ i4 ++ []). split; [done|].
  rewrite !Forall_app. split_and!; [| | |constructor].
  - eapply Forall_impl; [exact H2|]. intros i. by apply extends_under_other.
  - eapply Forall_impl; [exact H3|]. intros i. by apply extends_under_other.
  - eapply Forall_impl; [exact H4|]. intros i. by apply extends_under_other.
Qed.

Lemma format_first_issue message :
  format_issue ["openapi"] message empty_field_errors
  = JObj [("_errors", JArr []);
          ("openapi", JObj [("_errors", JArr [JStr message])])].
Proof. reflexivity. Qed.

Lemma fold_format_other key issues props :
  Forall (under_other_key key) issues →
  ∃ props',
    fold_left (fun fieldErrors issue =>
                 format_issue (issue_path issue) (issue_message issue)
                              fieldErrors)
              issues (JObj props) = JObj props'
    ∧ obj_get key props' = obj_get key props.
Proof.
  intros H. revert props.
  induction H as [|issue rest (k & suffix & Hpath & Hne) _ IH]; intros props.
  - by exists props.
  - cbn [fold_left]. rewrite Hpath. cbn [format_issue].
    destruct (IH (obj_set k
                    (format_issue suffix (issue_message issue)
                       (default empty_field_errors (obj_get k props))) props))
      as (props' & -> & Hget).
    exists props'. split; [done|]. rewrite Hget.
    by apply obj_get_obj_set_ne.
Qed.

(** ** Dates: [Date.parse] reads [toISOString] back *)

Module DateFacts.
Import Date.

Lemma DayFromYear_succ y : DayFromYear (y + 1) = DayFromYear y + DaysInYear y.
Proof.
  unfold DayFromYear, DaysInYear.
  repeat match goal with
         | |- context [negb (?a =? ?b)] => destruct (Z.eqb_spec a b)
         end; cbn [negb]; Z.div_mod_to_equations; lia.
Qed.

Lemma YearFromTime_spec t :
  DayFromYear (YearFromTime t) <= Day t < DayFromYear (YearFromTime t + 1).
Proof.
  unfold YearFromTime. set (d := Day t). clearbody d.
  set (y := 1970 + 400 * d / 146097).
  destruct (Z.ltb_spec d (DayFromYear y)) as [H1|H1].
  - replace (y - 1 + 1) with y by lia. split; [|done].
    unfold DayFromYear in *. subst y. Z.div_mod_to_equations. lia.
  - destruct (Z.leb_spec (DayFromYear (y + 1)) d) as [H2|H2]; [|lia].
    split; [done|]. 
    unfold DayFromYear in *. subst y. Z.div_mod_to_equations. lia.
Qed.

Lemma YearFromTime_range t :
  valid_time t = true → -999999 <= YearFromTime t <= 999999.
Proof.
  unfold valid_time, maxTime. rewrite andb_true_iff, !Z.leb_le. intros Ht.
  pose proof (YearFromTime_spec t) as Hy.
  rewrite DayFromYear_succ in Hy.
  assert (-100000000 <= Day t <= 100000000) as Hd.
  { unfold Day, msPerDay. Z.div_mod_to_equations. lia. }
  assert (365 <= DaysInYear (YearFromTime t) <= 366) as Hlen.
  { unfold DaysInYear. repeat case_match; lia. }
  revert Hy Hlen Hd. generalize (YearFromTime t) (Day t). intros y d.
  unfold DayFromYear. intros. Z.div_mod_to_equations. lia.
Qed.

Lemma DayWithinYear_range t :
  0 <= DayWithinYear t < 365 + InLeapYear t.
Proof.
  pose proof (YearFromTime_spec t) as Hy. rewrite DayFromYear_succ in Hy.
  unfold DayWithinYear, InLeapYear.
  assert (DaysInYear (YearFromTime t) = 365 ∨ DaysInYear (YearFromTime t) = 366)
    as [E|E] by (unfold DaysInYear; repeat case_match; lia);
    rewrite E in *; cbn; lia.
Qed.

Lemma month_and_date_range t :
  let leap := InLeapYear t in
  0 <= MonthFromTime t <= 11
  ∧ 1 <= DateFromTime t <= DaysInMonth leap (MonthFromTime t).
Proof.
  pose proof (DayWithinYear_range t) as Hd.
  assert (InLeapYear t = 0 ∨ InLeapYear t = 1) as Hleap
    by (unfold InLeapYear; case_match; lia).
  unfold DateFromTime, DaysInMonth, MonthFromTime. cbv zeta.
  revert Hd Hleap. generalize (DayWithinYear t) (InLeapYear t). intros d leap ??.
  repeat match goal with
         | |- context [?a <? ?b] => destruct (Z.ltb_spec a b)
         end;
    repeat match goal with
           | |- context [month_start _ (?a + 1)] =>
               let v := eval vm_compute in (a + 1) in change (a + 1) with v
           end;
    cbn [month_start]; lia.
Qed.

Lemma time_within_day_range t :
  0 <= HourFromTime t <= 23 ∧ 0 <= MinFromTime t <= 59
  ∧ 0 <= SecFromTime t <= 59 ∧ 0 <= msFromTime t <= 999
  ∧ MakeTime (HourFromTime t) (MinFromTime t) (SecFromTime t) (msFromTime t)
    = TimeWithinDay t.
Proof.
  unfold HourFromTime, MinFromTime, SecFromTime, msFromTime, MakeTime,
    TimeWithinDay, msPerDay, msPerHour, msPerMinute, msPerSecond.
  Z.div_mod_to_equations. lia.
Qed.

Lemma MakeDay_from_time t :
  MakeDay (YearFromTime t) (MonthFromTime t) (DateFromTime t) = Day t.
Proof. unfold MakeDay, DateFromTime, DayWithinYear, InLeapYear. lia. Qed.

Lemma digit_char_spec d :
  0 <= d <= 9 → is_digit (digit_char d) = true ∧ digit_value (digit_char d) = d.
Proof.
  intros H.
  assert (d = 0 ∨ d = 1 ∨ d = 2 ∨ d = 3 ∨ d = 4 ∨ d = 5 ∨ d = 6 ∨ d = 7
          ∨ d = 8 ∨ d = 9) as Hd by lia.
  repeat destruct Hd as [->|Hd]; try subst d; done.
Qed.

Lemma read_digits_snoc k : ∀ acc s,
  read_digits (S k) acc s
  = match read_digits k acc s with
    | Some (a, String c s') =>
        if is_digit c then Some (10 * a + digit_value c, s') else None
    | _ => None
    end.
Proof.
  induction k as [|k IH]; intros acc s.
  - by destruct s.
  - change (read_digits (S (S k)) acc s)
      with (match s with
            | String c s' =>
                if is_digit c
                then read_digits (S k) (10 * acc + digit_value c) s'
                else None
            | EmptyString => None
            end).
    destruct s as [|c s']; [done|]. cbn [read_digits].
    destruct (is_digit c); [|done]. apply IH.
Qed.

Lemma read_digits_pad_before k : ∀ acc n rest,
  0 <= n < 10 ^ Z.of_nat k →
  read_digits k acc (pad_before k n rest)
  = Some (acc * 10 ^ Z.of_nat k + n, rest).
Proof.
  induction k as [|k IH]; intros acc n rest Hn.
  - cbn. f_equal. f_equal. change (10 ^ Z.of_nat 0) with 1 in *. lia.
  - rewrite read_digits_snoc. cbn [pad_before].
    rewrite Nat2Z.inj_succ, Z.pow_succ_r in * by lia.
    rewrite IH by (Z.div_mod_to_equations; lia).
    destruct (digit_char_spec (n mod 10)) as [-> ->];
      [Z.div_mod_to_equations; lia|].
    f_equal. f_equal. Z.div_mod_to_equations. nia.
Qed.

Lemma pad_before_append k : ∀ n a b,
  pad_before k n (a +:+ b) = pad_before k n a +:+ b.
Proof.
  induction k as [|k IH]; intros n a b; [done|].
  cbn [pad_before]. by rewrite <- IH.
Qed.

Lemma read_digits_pad k n rest :
  0 <= n < 10 ^ Z.of_nat k →
  read_digits k 0 (pad k n +:+ rest) = Some (n, rest).
Proof.
  intros Hn. unfold pad. rewrite <- pad_before_append.
  change (EmptyString +:+ rest) with rest.
  by rewrite read_digits_pad_before.
Qed.

Lemma read_year_digit c s :
  is_digit c = true → read_year (String c s) = read_digits 4 0 (String c s).
Proof.
  destruct c as [[] [] [] [] [] [] [] []]; try done.
Qed.

Lemma pad_before_head k n rest :
  0 <= n →
  ∃ d s, 0 <= d <= 9 ∧ pad_before (S k) n rest = String (digit_char d) s.
Proof.
  revert n rest. induction k as [|k IH]; intros n rest Hn.
  - exists (n mod 10), rest. split; [Z.div_mod_to_equations; lia|done].
  - change (pad_before (S (S k)) n rest)
      with (pad_before (S k) (n / 10) (String (digit_char (n mod 10)) rest)).
    apply IH. Z.div_mod_to_equations; lia.
Qed.

Lemma read_year_year_string y rest :
  -999999 <= y <= 999999 →
  read_year (year_string y +:+ rest) = Some (y, rest).
Proof.
  intros Hy. unfold year_string.
  destruct (Z.leb_spec 0 y) as [H0|H0]; cbn [andb].
  - destruct (Z.leb_spec y 9999) as [H1|H1].
    + pose proof (read_digits_pad 4 y rest) as Hread.
      unfold pad in *. rewrite <- pad_before_append in *.
      destruct (pad_before_head 3 y (EmptyString +:+ rest)) as (d & s & Hd & E);
        [done|].
      rewrite E in *. rewrite read_year_digit by by apply digit_char_spec.
      apply Hread. change (10 ^ Z.of_nat 4) with 10000. lia.
    + destruct (Z.ltb_spec y 0); [lia|].
      change (("+" +:+ pad 6 y) +:+ rest) with (String "+" (pad 6 y +:+ rest)).
      cbn [read_year]. apply read_digits_pad.
      change (10 ^ Z.of_nat 6) with 1000000. lia.
  - destruct (Z.ltb_spec y 0); [|lia].
    change (("-" +:+ pad 6 (- y)) +:+ rest)
      with (String "-" (pad 6 (- y) +:+ rest)).
    cbn [read_year]. rewrite read_digits_pad.
    + destruct (Z.eqb_spec (- y) 0); [lia|]. f_equal. f_equal. lia.
    + change (10 ^ Z.of_nat 6) with 1000000. lia.
Qed.

Lemma expect_literal c rest :
  expect c (String c EmptyString +:+ rest) = Some rest.
Proof.
  change (String c EmptyString +:+ rest) with (String c rest).
  cbn [expect]. by rewrite Ascii.eqb_refl.
Qed.

Lemma parse_toISOString t :
  valid_time t = true → parse (toISOString t) = Some t.
Proof.
  intros Hvalid. unfold toISOString, parse.
  pose proof (YearFromTime_range t Hvalid) as Hyear.
  destruct (month_and_date_range t) as [Hmonth Hdate].
  destruct (time_within_day_range t) as (Hh & Hmi & Hs & Hms & Htime).
  cbv zeta in Hdate.
  assert (DaysInMonth (InLeapYear t) (MonthFromTime t) <= 31) as Hdim.
  { unfold DaysInMonth, InLeapYear.
    assert (MonthFromTime t ∈ [0; 1; 2; 3; 4; 5; 6; 7; 8; 9; 10; 11]) as Hm.
    { rewrite !elem_of_cons. lia. }
    rewrite !elem_of_cons, elem_of_nil in Hm.
    destruct_or! Hm; try done; rewrite Hm; case_match; done. }
  change (10 ^ Z.of_nat 2) with 100 in *.
  rewrite read_year_year_string by done. cbn [mbind option_bind].
  repeat (first [ rewrite expect_literal
                | rewrite read_digits_pad
                    by (try change (10 ^ Z.of_nat 2) with 100;
                        try change (10 ^ Z.of_nat 3) with 1000; lia) ];
          cbn [mbind option_bind]).
  change (expect "Z" "Z") with (Some EmptyString). cbn [mbind option_bind].
  replace (MonthFromTime t + 1 - 1) with (MonthFromTime t) by lia.
  fold (InLeapYear t).
  rewrite MakeDay_from_time, Htime.
  replace (MakeDate (Day t) (TimeWithinDay t)) with t.
  2:{ unfold MakeDate, Day, TimeWithinDay, msPerDay.
      Z.div_mod_to_equations. lia. }
  rewrite Hvalid.
  repeat match goal with
         | |- context [?a <=? ?b] =>
             destruct (Z.leb_spec a b); [|lia]
         end.
  done.
Qed.

End DateFacts.

(** ** The runs of the handler *)

Ltac unfold_handler :=
  unfold serve_generate, generate_handler, try_catch, bind, c_req_json.

Section Runs.

Context (client : LanguageModel) (w : World) (req : Request).

Lemma serve_generate_no_body e :
  req_json req = inl e →
  serve_generate client w req
  = (inr (failure_response e (world_now w)),
     [EvConsoleError "Error generating code:" e]).
Proof. intros Hreq. unfold_handler. rewrite Hreq. by destruct e. Qed.

Lemma serve_generate_invalid document error :
  req_json req = inr document →
  safeParse openApiSchema document = SafeParseError error →
  serve_generate client w req = (inr (validation_response error), []).
Proof.
  intros Hreq Hparse. unfold_handler. rewrite Hreq.
  cbv beta iota delta [ret]. by rewrite Hparse.
Qed.

Lemma serve_generate_rejects document openapiSpec reason :
  req_json req = inr document →
  safeParse openApiSchema document = SafeParseSuccess openapiSpec →
  world_generateObject w (generateObject_options client openapiSpec)
  = Rejects reason →
  serve_generate client w req
  = (inr (failure_response reason (world_now w)),
     [EvGenerateObject (generateObject_options client openapiSpec);
      EvConsoleError "Error generating code:" reason]).
Proof.
  intros Hreq Hparse Hworld. unfold_handler. rewrite Hreq.
  cbv beta iota delta [ret]. rewrite Hparse.
  unfold generateObject. rewrite Hworld. by destruct reason.
Qed.

Lemma serve_generate_resolves document generatedFiles :
  req_json req = inr document →
  structurally_valid document = true →
  world_generateObject w
    (generateObject_options client (Some (declared_fields document)))
  = Resolves generatedFiles →
  ∃ info title version,
    member "info" document = Some (JObj info)
    ∧ obj_get "title" info = Some (JStr title)
    ∧ obj_get "version" info = Some (JStr version)
    ∧ serve_generate client w req
      = (inr (success_response title version (world_now w) generatedFiles),
         [EvGenerateObject
            (generateObject_options client (Some (declared_fields document)))]).
Proof.
  intros Hreq Hvalid Hworld.
  destruct (valid_document_shape _ Hvalid)
    as (props & openapi & info & title & version & paths & -> & Ho & Hre & Hi
        & Ht & Hv & Hp & Hc & Hfields).
  exists info, title, version. split_and!; try done.
  unfold_handler. rewrite Hreq. cbv beta iota delta [ret].
  rewrite safeParse_openApiSchema, Hvalid.
  unfold generateObject. rewrite Hworld, Hfields. reflexivity.
Qed.

(** Every request ends in one of the four ways; in particular the
    handler always answers and never lets an exception escape. *)
Lemma serve_generate_handled :
  handled client w req (serve_generate client w req).
Proof.
  destruct (req_json req) as [e|document] eqn:Hreq.
  { rewrite (serve_generate_no_body e Hreq). by constructor. }
  destruct (safeParse openApiSchema document) as [openapiSpec|error] eqn:Hparse.
  2:{ rewrite (serve_generate_invalid document error Hreq Hparse).
      by econstructor. }
  destruct (world_generateObject w (generateObject_options client openapiSpec))
    as [generatedFiles|reason] eqn:Hworld.
  2:{ rewrite (serve_generate_rejects document openapiSpec reason
                 Hreq Hparse Hworld). by econstructor. }
  pose proof Hparse as Hshape. rewrite safeParse_openApiSchema in Hshape.
  destruct (structurally_valid document) eqn:Hvalid; [|done].
  injection Hshape as <-.
  destruct (serve_generate_resolves document generatedFiles Hreq Hvalid Hworld)
    as (info & title & version & Hinfo & Htitle & Hversion & ->).
  by econstructor.
Qed.

Lemma generateObject_calls_of_request document openapiSpec :
  req_json req = inr document →
  safeParse openApiSchema document = SafeParseSuccess openapiSpec →
  generateObject_calls (snd (serve_generate client w req))
  = [generateObject_options client openapiSpec].
Proof.
  intros Hreq Hparse.
  destruct serve_generate_handled
    as [e Hreq'|document' error Hreq' Hparse'
       |document' openapiSpec' reason Hreq' Hparse' _
       |document' openapiSpec' generatedFiles info title version Hreq' Hparse'];
    rewrite Hreq' in Hreq; try done;
    injection Hreq as <-; rewrite Hparse' in Hparse; try done;
    by injection Hparse as <-.
Qed.

End Runs.

(** * The properties of the specification *)

(** C1.  For every successful generation response of [POST /generate],
    given that the capability resolves with a JavaScript object (no key
    twice): the handler called [generateObject] once, the [files] of the
    response are the object it resolved with, [metadata.fileCount] is the
    number of distinct keys of [files], and [metadata.files] is the list
    of the keys of [files], in the order of the generator's object. *)
Theorem generate_success_metadata client w req resp log :
  resolves_with_objects w →
  serve_generate client w req = (inr resp, log) →
  status resp = 200 →
  ∃ options generatedFiles files,
    generateObject_calls log = [options]
    ∧ world_generateObject w options = Resolves generatedFiles
    ∧ member "files" (body resp) = Some (JObj files)
    ∧ JObj files = files_object generatedFiles
    ∧ Object_keys files = Object_keys generatedFiles
    ∧ metadata_member "fileCount" resp
      = Some (JNum (Z.of_nat (length (remove_dups (Object_keys files)))))
    ∧ metadata_member "files" resp = Some (JArr (map JStr (Object_keys files))).
Proof.
  intros Hobjects Hrun Hstatus.
  pose proof (serve_generate_handled client w req) as Hhandled.
  rewrite Hrun in Hhandled.
  inversion Hhandled
    as [| |
        |document openapiSpec generatedFiles info title version _ _ Hworld];
    subst; try done.
  exists (generateObject_options client openapiSpec), generatedFiles,
    (map (fun '(k, v) => (k, JStr v)) generatedFiles).
  rewrite Object_keys_files_object.
  rewrite remove_dups_NoDup by by eapply Hobjects.
  by split_and!.
Qed.

Lemma generate_success_metadata_witness :
  resolves_with_objects stub_world
  ∧ serve_generate sample_client stub_world (mkRequest (inr minimal_document))
    = (inr (success_response "Blog" "1.0.0" sample_now sample_files),
       [EvGenerateObject
          (generateObject_options sample_client (Some minimal_document))])
  ∧ status (success_response "Blog" "1.0.0" sample_now sample_files) = 200
  ∧ ∃ options generatedFiles files,
      generateObject_calls
        [EvGenerateObject
           (generateObject_options sample_client (Some minimal_document))]
      = [options]
      ∧ world_generateObject stub_world options = Resolves generatedFiles
      ∧ member "files"
          (body (success_response "Blog" "1.0.0" sample_now sample_files))
        = Some (JObj files)
      ∧ JObj files = files_object generatedFiles
      ∧ Object_keys files = Object_keys generatedFiles
      ∧ metadata_member "fileCount"
          (success_response "Blog" "1.0.0" sample_now sample_files)
        = Some (JNum (Z.of_nat (length (remove_dups (Object_keys files)))))
      ∧ metadata_member "files"
          (success_response "Blog" "1.0.0" sample_now sample_files)
        = Some (JArr (map JStr (Object_keys files))).
Proof.
  assert (resolves_with_objects stub_world) as Hobjects.
  { intros options object [= <-]. apply (bool_decide_unpack _).
    vm_compute. exact I. }
  assert (serve_generate sample_client stub_world
            (mkRequest (inr minimal_document))
          = (inr (success_response "Blog" "1.0.0" sample_now sample_files),
             [EvGenerateObject
                (generateObject_options sample_client (Some minimal_document))]))
    as Hrun by (vm_compute; reflexivity).
  split; [exact Hobjects|]. split; [exact Hrun|]. split; [reflexivity|].
  exact (generate_success_metadata sample_client stub_world
           (mkRequest (inr minimal_document)) _ _ Hobjects Hrun eq_refl).
Defined.

(** C2, amended.  For every document that is a JSON object whose
    [openapi] field is absent, is not a string, or does not match
    [^3\.\d+\.\d+$], the validator rejects it; the first issue of the
    error has the path [["openapi"]], no other issue lies under that
    key, and [error.format()] reports its message under [openapi]. *)
Theorem openapi_field_rejected (props : list (string * json)) :
  (obj_get "openapi" props = None
   ∨ (∃ v, obj_get "openapi" props = Some v ∧ is_string (Some v) = false)
   ∨ (∃ s, obj_get "openapi" props = Some (JStr s)
           ∧ RegExp_test_anchored openapi_version_re s = false)) →
  ∃ error issue others,
    safeParse openApiSchema (JObj props) = SafeParseError error
    ∧ issues error = issue :: others
    ∧ issue_path issue = ["openapi"]
    ∧ Forall (under_other_key "openapi") others
    ∧ member "openapi" (ZodError_format error)
      = Some (JObj [("_errors", JArr [JStr (issue_message issue)])]).
Proof.
  intros Hbad.
  assert (openapi_ok (obj_get "openapi" props) = false) as Hok.
  { destruct Hbad as [->|[(v & -> & Hv)|(s & -> & Hs)]]; [done| |done].
    by destruct v. }
  rewrite safeParse_openApiSchema. cbn [structurally_valid]. rewrite Hok.
  cbn [andb].
  destruct (document_issues props) as (others & -> & Hothers).
  destruct (openapi_field_issue ["openapi"] _ Hok) as (issue & -> & Hpath).
  exists (mkZodError (issue :: others)), issue, others.
  split_and!; try done.
  unfold ZodError_format. cbn [issues fold_left]. rewrite Hpath.
  rewrite format_first_issue.
  match goal with
  | |- context [fold_left ?f others (JObj ?p)] =>
      destruct (fold_format_other "openapi" others p Hothers)
        as (props' & -> & Hget)
  end.
  cbn [member]. by rewrite Hget.
Qed.

Lemma openapi_field_rejected_witness :
  (obj_get "openapi"
     [("openapi", JStr "2.0");
      ("info", JObj [("title", JStr "X"); ("version", JStr "1")]);
      ("paths", JObj [])] = None
   ∨ (∃ v, obj_get "openapi"
             [("openapi", JStr "2.0");
              ("info", JObj [("title", JStr "X"); ("version", JStr "1")]);
              ("paths", JObj [])] = Some v ∧ is_string (Some v) = false)
   ∨ (∃ s, obj_get "openapi"
             [("openapi", JStr "2.0");
              ("info", JObj [("title", JStr "X"); ("version", JStr "1")]);
              ("paths", JObj [])] = Some (JStr s)
           ∧ RegExp_test_anchored openapi_version_re s = false))
  ∧ ∃ error issue others,
      safeParse openApiSchema swagger2_document = SafeParseError error
      ∧ issues error = issue :: others
      ∧ issue_path issue = ["openapi"]
      ∧ Forall (under_other_key "openapi") others
      ∧ member "openapi" (ZodError_format error)
        = Some (JObj [("_errors", JArr [JStr (issue_message issue)])]).
Proof.
  assert (∃ s, obj_get "openapi"
             [("openapi", JStr "2.0");
              ("info", JObj [("title", JStr "X"); ("version", JStr "1")]);
              ("paths", JObj [])] = Some (JStr s)
           ∧ RegExp_test_anchored openapi_version_re s = false) as H.
  { exists "2.0". split; reflexivity. }
  split.
  - right. right. exact H.
  - apply (openapi_field_rejected
             [("openapi", JStr "2.0");
              ("info", JObj [("title", JStr "X"); ("version", JStr "1")]);
              ("paths", JObj [])]).
    right. right. exact H.
Defined.

(** C2, as stated, fails on a document that is no object: the array [[]]
    has no [openapi] field and is rejected, but the only issue lies at
    the root of the document and the formatted error has no [openapi]
    entry. *)
Lemma array_document_error_names_no_field :
  member "openapi" (JArr []) = None
  ∧ safeParse openApiSchema (JArr [])
    = SafeParseError
        (mkZodError [mkIssue (invalid_type PT_object PT_array) []
                       "Expected object, received array"])
  ∧ member "openapi"
      (ZodError_format
         (mkZodError [mkIssue (invalid_type PT_object PT_array) []
                        "Expected object, received array"]))
    = None.
Proof. by vm_compute. Qed.

(** C3, amended.  Every document with [openapi] equal to ["3.0.0"],
    string-valued [info.title] and [info.version], a [paths] value that
    is a mapping (the empty one included) and whose [components], if
    present, is an object whose [schemas], if present, is a mapping, is
    accepted. *)
Theorem well_formed_document_accepted props info title version paths :
  obj_get "openapi" props = Some (JStr "3.0.0") →
  obj_get "info" props = Some (JObj info) →
  obj_get "title" info = Some (JStr title) →
  obj_get "version" info = Some (JStr version) →
  obj_get "paths" props = Some (JObj paths) →
  components_ok (obj_get "components" props) = true →
  success (safeParse openApiSchema (JObj props)) = true.
Proof.
  intros Ho Hi Ht Hv Hp Hc. rewrite safeParse_openApiSchema.
  unfold structurally_valid, openapi_ok, info_ok, is_string, is_mapping.
  rewrite Ho, Hi, Ht, Hv, Hp, Hc. reflexivity.
Qed.

Lemma well_formed_document_accepted_witness :
  obj_get "openapi"
    [("openapi", JStr "3.0.0");
     ("info", JObj [("title", JStr "Blog"); ("version", JStr "1.0.0")]);
     ("paths", JObj [])] = Some (JStr "3.0.0")
  ∧ obj_get "info"
      [("openapi", JStr "3.0.0");
       ("info", JObj [("title", JStr "Blog"); ("version", JStr "1.0.0")]);
       ("paths", JObj [])]
    = Some (JObj [("title", JStr "Blog"); ("version", JStr "1.0.0")])
  ∧ obj_get "title" [("title", JStr "Blog"); ("version", JStr "1.0.0")]
    = Some (JStr "Blog")
  ∧ obj_get "version" [("title", JStr "Blog"); ("version", JStr "1.0.0")]
    = Some (JStr "1.0.0")
  ∧ obj_get "paths"
      [("openapi", JStr "3.0.0");
       ("info", JObj [("title", JStr "Blog"); ("version", JStr "1.0.0")]);
       ("paths", JObj [])] = Some (JObj [])
  ∧ components_ok
      (obj_get "components"
         [("openapi", JStr "3.0.0");
          ("info", JObj [("title", JStr "Blog"); ("version", JStr "1.0.0")]);
          ("paths", JObj [])]) = true
  ∧ success (safeParse openApiSchema minimal_document) = true.
Proof.
  do 6 (split; [reflexivity|]).
  apply (well_formed_document_accepted
           [("openapi", JStr "3.0.0");
            ("info", JObj [("title", JStr "Blog"); ("version", JStr "1.0.0")]);
            ("paths", JObj [])]
           [("title", JStr "Blog"); ("version", JStr "1.0.0")]
           "Blog" "1.0.0" []); reflexivity.
Defined.

(** C3, as stated, fails on a document with [components: null]: it has
    the [openapi] value, the title, the version and the empty [paths]
    that the claim asks for, and the validator rejects it. *)
Lemma null_components_rejected :
  member "openapi" null_components_document = Some (JStr "3.0.0")
  ∧ (member "info" null_components_document ≫= member "title")
    = Some (JStr "Blog")
  ∧ (member "info" null_components_document ≫= member "version")
    = Some (JStr "1.0.0")
  ∧ member "paths" null_components_document = Some (JObj [])
  ∧ safeParse openApiSchema null_components_document
    = SafeParseError
        (mkZodError [mkIssue (invalid_type PT_object PT_null) ["components"]
                       "Expected object, received null"]).
Proof. by vm_compute. Qed.




(** C5.  For every request whose document is valid and whose call of
    [generateObject] fails, for whatever reason thrown, the response has
    status 500, an [error] string and a [timestamp] that [Date.parse]
    reads back as the time of the clock, and it has no [files] key. *)
Theorem generation_failure_response client w req document openapiSpec reason :
  Date.valid_time (world_now w) = true →
  req_json req = inr document →
  safeParse openApiSchema document = SafeParseSuccess openapiSpec →
  world_generateObject w (generateObject_options client openapiSpec)
  = Rejects reason →
  ∃ resp log category timestamp,
    serve_generate client w req = (inr resp, log)
    ∧ status resp = 500
    ∧ member "error" (body resp) = Some (JStr category)
    ∧ member "timestamp" (body resp) = Some (JStr timestamp)
    ∧ Date.parse timestamp = Some (world_now w)
    ∧ member "files" (body resp) = None.
Proof.
  intros Hclock Hreq Hparse Hworld.
  rewrite (serve_generate_rejects client w req document openapiSpec reason)
    by done.
  eexists _, _. destruct reason as [name message|value].
  - exists "Code generation failed", (Date.toISOString (world_now w)).
    split_and!; try reflexivity. by apply DateFacts.parse_toISOString.
  - exists "Unknown error occurred during code generation",
      (Date.toISOString (world_now w)).
    split_and!; try reflexivity. by apply DateFacts.parse_toISOString.
Qed.

Lemma generation_failure_response_witness :
  Date.valid_time (world_now unauthenticated_world) = true
  ∧ req_json (mkRequest (inr minimal_document)) = inr minimal_document
  ∧ safeParse openApiSchema minimal_document
    = SafeParseSuccess (Some minimal_document)
  ∧ world_generateObject unauthenticated_world
      (generateObject_options sample_client (Some minimal_document))
    = Rejects (ThrownError "Error" "API key not valid")
  ∧ ∃ resp log category timestamp,
      serve_generate sample_client unauthenticated_world
        (mkRequest (inr minimal_document)) = (inr resp, log)
      ∧ status resp = 500
      ∧ member "error" (body resp) = Some (JStr category)
      ∧ member "timestamp" (body resp) = Some (JStr timestamp)
      ∧ Date.parse timestamp = Some (world_now unauthenticated_world)
      ∧ member "files" (body resp) = None.
Proof.
  do 4 (split; [reflexivity|]).
  apply (generation_failure_response sample_client unauthenticated_world
           (mkRequest (inr minimal_document)) minimal_document
           (Some minimal_document) (ThrownError "Error" "API key not valid"));
    reflexivity.
Defined.

(** C6, amended.  Every failure response of [POST /generate] carries an
    [error] category string.  A validation failure (status 400) carries
    [details] and nothing else, so no timestamp; a failure caught as an
    [Error] (status 500) carries [message] and [timestamp]; any other
    thrown value (status 500) carries a [timestamp] only. *)
Theorem failure_envelopes client w req resp log :
  serve_generate client w req = (inr resp, log) →
  status resp ≠ 200 →
  (∃ category, member "error" (body resp) = Some (JStr category))
  ∧ ((∃ document error,
        req_json req = inr document
        ∧ safeParse openApiSchema document = SafeParseError error
        ∧ status resp = 400
        ∧ envelope_keys resp = ["error"; "details"]
        ∧ member "details" (body resp) = Some (ZodError_format error))
     ∨ (∃ name message,
          In (EvConsoleError "Error generating code:"
                (ThrownError name message)) log
          ∧ status resp = 500
          ∧ envelope_keys resp = ["error"; "message"; "timestamp"]
          ∧ member "message" (body resp) = Some (JStr message)
          ∧ member "timestamp" (body resp)
            = Some (JStr (Date.toISOString (world_now w))))
     ∨ (∃ value,
          In (EvConsoleError "Error generating code:" (ThrownOther value)) log
          ∧ status resp = 500
          ∧ envelope_keys resp = ["error"; "timestamp"]
          ∧ member "timestamp" (body resp)
            = Some (JStr (Date.toISOString (world_now w))))).
Proof.
  intros Hrun Hstatus.
  pose proof (serve_generate_handled client w req) as Hhandled.
  rewrite Hrun in Hhandled.
  inversion Hhandled
    as [e Hreq|document error Hreq Hparse|document openapiSpec e|];
    subst; try done.
  - split; [by destruct e; eexists|]. right.
    destruct e as [name message|value]; [left|right].
    + exists name, message. split_and!; try done. by left.
    + exists value. split_and!; try done. by left.
  - split; [by eexists|]. left. by exists document, error.
  - split; [by destruct e; eexists|]. right.
    destruct e as [name message|value]; [left|right].
    + exists name, message. split_and!; try done. right. by left.
    + exists value. split_and!; try done. right. by left.
Qed.

Lemma failure_envelopes_witness :
  serve_generate sample_client throwing_world (mkRequest (inr minimal_document))
  = (inr (failure_response (ThrownOther (JStr "quota")) sample_now),
     [EvGenerateObject
        (generateObject_options sample_client (Some minimal_document));
      EvConsoleError "Error generating code:" (ThrownOther (JStr "quota"))])
  ∧ status (failure_response (ThrownOther (JStr "quota")) sample_now) ≠ 200
  ∧ envelope_keys (failure_response (ThrownOther (JStr "quota")) sample_now)
    = ["error"; "timestamp"]
  ∧ ∃ category,
      member "error"
        (body (failure_response (ThrownOther (JStr "quota")) sample_now))
      = Some (JStr category).
Proof.
  assert (serve_generate sample_client throwing_world
            (mkRequest (inr minimal_document))
          = (inr (failure_response (ThrownOther (JStr "quota")) sample_now),
             [EvGenerateObject
                (generateObject_options sample_client (Some minimal_document));
              EvConsoleError "Error generating code:"
                (ThrownOther (JStr "quota"))])) as Hrun
    by (vm_compute; reflexivity).
  assert (status (failure_response (ThrownOther (JStr "quota")) sample_now)
          ≠ 200) as Hstatus by (intros H; discriminate H).
  split; [exact Hrun|]. split; [exact Hstatus|]. split; [reflexivity|].
  exact (proj1 (failure_envelopes sample_client throwing_world
                  (mkRequest (inr minimal_document)) _ _ Hrun Hstatus)).
Defined.

(** C6, as stated, fails on the validation failure: the response to a
    Swagger 2.0 document has the keys [error] and [details] and no
    [timestamp]. *)
Lemma validation_failure_has_no_timestamp :
  serve_generate sample_client stub_world (mkRequest (inr swagger2_document))
  = (inr (mkResponse 400
            (JObj [("error", JStr "Invalid OpenAPI specification");
                   ("details",
                    JObj [("_errors", JArr []);
                          ("openapi",
                           JObj [("_errors",
                                  JArr [JStr "Must be OpenAPI 3.x.x"])])])])),
     [])
  ∧ member "timestamp"
      (JObj [("error", JStr "Invalid OpenAPI specification");
             ("details",
              JObj [("_errors", JArr []);
                    ("openapi",
                     JObj [("_errors",
                            JArr [JStr "Must be OpenAPI 3.x.x"])])])])
    = None.
Proof. by vm_compute. Qed.

(** C7.  For every document the validator rejects, the handler answers
    with the 400 validation-error response and the run contains no call
    of [generateObject]. *)
Theorem invalid_document_never_generates client w req document :
  req_json req = inr document →
  success (safeParse openApiSchema document) = false →
  ∃ error log,
    safeParse openApiSchema document = SafeParseError error
    ∧ serve_generate client w req
      = (inr (mkResponse 400
                (JObj [("error", JStr "Invalid OpenAPI specification");
                       ("details", ZodError_format error)])), log)
    ∧ generateObject_calls log = [].
Proof.
  intros Hreq Hrejected.
  destruct (safeParse openApiSchema document) as [|error] eqn:Hparse; [done|].
  exists error, []. split; [done|]. split; [|done].
  by apply (serve_generate_invalid client w req document error).
Qed.

Lemma invalid_document_never_generates_witness :
  req_json (mkRequest (inr swagger2_document)) = inr swagger2_document
  ∧ success (safeParse openApiSchema swagger2_document) = false
  ∧ ∃ error log,
      safeParse openApiSchema swagger2_document = SafeParseError error
      ∧ serve_generate sample_client stub_world
          (mkRequest (inr swagger2_document))
        = (inr (mkResponse 400
                  (JObj [("error", JStr "Invalid OpenAPI specification");
                         ("details", ZodError_format error)])), log)
      ∧ generateObject_calls log = [].
Proof.
  do 2 (split; [reflexivity|]).
  apply (invalid_document_never_generates sample_client stub_world
           (mkRequest (inr swagger2_document)) swagger2_document);
    reflexivity.
Defined.

(** C8.  Any two requests whose documents validate to the same
    specification hand [generateObject] the same two prompts, whatever
    the client, the clock and the behaviour of the capability: the system
    prompt is the constant [systemPrompt], the user prompt is
    [userPrompt] of the specification. *)
Theorem prompts_depend_on_specification_only
    client1 client2 w1 w2 req1 req2 document1 document2 openapiSpec :
  req_json req1 = inr document1 →
  req_json req2 = inr document2 →
  safeParse openApiSchema document1 = SafeParseSuccess openapiSpec →
  safeParse openApiSchema document2 = SafeParseSuccess openapiSpec →
  ∃ options1 options2,
    generateObject_calls (snd (serve_generate client1 w1 req1)) = [options1]
    ∧ generateObject_calls (snd (serve_generate client2 w2 req2)) = [options2]
    ∧ opt_system options1 = systemPrompt
    ∧ opt_system options2 = systemPrompt
    ∧ opt_prompt options1 = userPrompt openapiSpec
    ∧ opt_prompt options2 = userPrompt openapiSpec.
Proof.
  intros Hreq1 Hreq2 Hparse1 Hparse2.
  exists (generateObject_options client1 openapiSpec),
    (generateObject_options client2 openapiSpec).
  split_and!; try reflexivity.
  - by eapply generateObject_calls_of_request.
  - by eapply generateObject_calls_of_request.
Qed.

Lemma prompts_depend_on_specification_only_witness :
  req_json (mkRequest (inr minimal_document)) = inr minimal_document
  ∧ req_json (mkRequest (inr described_document)) = inr described_document
  ∧ safeParse openApiSchema minimal_document
    = SafeParseSuccess (Some minimal_document)
  ∧ safeParse openApiSchema described_document
    = SafeParseSuccess (Some minimal_document)
  ∧ ∃ options1 options2,
      generateObject_calls
        (snd (serve_generate sample_client stub_world
                (mkRequest (inr minimal_document)))) = [options1]
      ∧ generateObject_calls
          (snd (serve_generate (google (Some "other-key")) unauthenticated_world
                  (mkRequest (inr described_document)))) = [options2]
      ∧ opt_system options1 = systemPrompt
      ∧ opt_system options2 = systemPrompt
      ∧ opt_prompt options1 = userPrompt (Some minimal_document)
      ∧ opt_prompt options2 = userPrompt (Some minimal_document).
Proof.
  do 4 (split; [reflexivity|]).
  apply (prompts_depend_on_specification_only sample_client (google (Some "other-key"))
           stub_world unauthenticated_world
           (mkRequest (inr minimal_document))
           (mkRequest (inr described_document))
           minimal_document described_document (Some minimal_document));
    reflexivity.
Defined.

(** C9, amended.  When [GOOGLE_API_KEY] is unset or empty in the process
    environment, the top level of [index.ts] throws before [serve] is
    reached. *)
Theorem startup_refuses_without_credential (process_env : gmap string string) :
  process_env !! "GOOGLE_API_KEY" = None
  ∨ process_env !! "GOOGLE_API_KEY" = Some EmptyString →
  startup process_env
  = inl (ThrownError "Error"
           "GOOGLE_API_KEY is not set in the environment variables").
Proof.
  intros Hkey. unfold startup, env. cbn [GOOGLE_API_KEY].
  by destruct Hkey as [->| ->].
Qed.

Lemma startup_refuses_without_credential_witness :
  ((∅ : gmap string string) !! "GOOGLE_API_KEY" = None
   ∨ (∅ : gmap string string) !! "GOOGLE_API_KEY" = Some EmptyString)
  ∧ startup ∅
    = inl (ThrownError "Error"
             "GOOGLE_API_KEY is not set in the environment variables").
Proof.
  split.
  - left. reflexivity.
  - apply (startup_refuses_without_credential ∅). left. reflexivity.
Defined.

(** C9, as stated, fails on an environment whose only credential is a
    blank [GOOGLE_API_KEY]: nothing in it is a usable credential, yet the
    check passes, the blank is handed to [google] and [serve] is
    reached. *)
Lemma blank_key_reaches_serve :
  truthy (Some " ") = true
  ∧ startup (<["GOOGLE_API_KEY" := " "]> ∅)
    = inr (mkServe (google (Some " ")) (PortNumber 3000)).
Proof. split; reflexivity. Qed.

(** C10.  The title and the version checks accept any string, the empty
    one included: whatever strings [info.title] and [info.version] are,
    a document whose other fields are valid is accepted, and neither
    field raises an issue. *)
Theorem any_title_and_version_accepted props (title version : string) :
  openapi_ok (obj_get "openapi" props) = true →
  is_mapping (obj_get "paths" props) = true →
  components_ok (obj_get "components" props) = true →
  success
    (safeParse openApiSchema
       (JObj (obj_set "info"
                (JObj [("title", JStr title); ("version", JStr version)])
                props))) = true
  ∧ fst (_parse z.string ["info"; "title"] (Some (JStr title))) = []
  ∧ fst (_parse z.string ["info"; "version"] (Some (JStr version))) = [].
Proof.
  intros Ho Hp Hc. split; [|done].
  rewrite safeParse_openApiSchema. cbn [structurally_valid].
  rewrite obj_get_obj_set_eq, !obj_get_obj_set_ne by done.
  by rewrite Ho, Hp, Hc.
Qed.

Lemma any_title_and_version_accepted_witness :
  openapi_ok
    (obj_get "openapi" [("openapi", JStr "3.0.0"); ("paths", JObj [])]) = true
  ∧ is_mapping
      (obj_get "paths" [("openapi", JStr "3.0.0"); ("paths", JObj [])]) = true
  ∧ components_ok
      (obj_get "components" [("openapi", JStr "3.0.0"); ("paths", JObj [])])
    = true
  ∧ success
      (safeParse openApiSchema
         (JObj [("openapi", JStr "3.0.0"); ("paths", JObj []);
                ("info", JObj [("title", JStr EmptyString); ("version", JStr EmptyString)])]))
    = true
  ∧ fst (_parse z.string ["info"; "title"] (Some (JStr EmptyString))) = []
  ∧ fst (_parse z.string ["info"; "version"] (Some (JStr EmptyString))) = [].
Proof.
  do 3 (split; [reflexivity|]).
  apply (any_title_and_version_accepted
           [("openapi", JStr "3.0.0"); ("paths", JObj [])] EmptyString EmptyString);
    reflexivity.
Defined.

(** * More of the code *)

(** X1.  The handler of [POST /generate] always answers, and the status
    is decided by three things only: 500 when the body cannot be read as
    JSON, 400 when the validator rejects the document, and otherwise 200
    or 500 as [generateObject] resolves or throws.  No exception escapes
    the handler. *)
Theorem status_of_every_request client w req :
  ∃ resp log,
    serve_generate client w req = (inr resp, log)
    ∧ status resp
      = match req_json req with
        | inl _ => 500
        | inr document =>
            match safeParse openApiSchema document with
            | SafeParseError _ => 400
            | SafeParseSuccess openapiSpec =>
                match world_generateObject w
                        (generateObject_options client openapiSpec) with
                | Resolves _ => 200
                | Rejects _ => 500
                end
            end
        end.
Proof.
  destruct (serve_generate_handled client w req)
    as [e Hreq|document error Hreq Hparse
       |document openapiSpec reason Hreq Hparse Hworld
       |document openapiSpec generatedFiles info title version
          Hreq Hparse Hworld];
    eexists _, _; (split; [reflexivity|]);
    rewrite Hreq, ?Hparse, ?Hworld; reflexivity.
Qed.

(** X2.  A body that cannot be read as JSON is answered with status 500
    and the error ["Code generation failed"], not with the 400 of an
    invalid document: the message is the one of the parse error, there
    are no [details], [generateObject] is not called and the error is
    logged once. *)
Theorem unreadable_body_is_server_error client w req name message :
  req_json req = inl (ThrownError name message) →
  ∃ resp log,
    serve_generate client w req = (inr resp, log)
    ∧ status resp = 500
    ∧ member "error" (body resp) = Some (JStr "Code generation failed")
    ∧ member "message" (body resp) = Some (JStr message)
    ∧ member "details" (body resp) = None
    ∧ generateObject_calls log = []
    ∧ console_errors log = [ThrownError name message].
Proof.
  intros Hreq. rewrite (serve_generate_no_body client w req _ Hreq).
  eexists _, _. by split_and!.
Qed.

Lemma unreadable_body_is_server_error_witness :
  req_json malformed_request
  = inl (ThrownError "SyntaxError" "Unexpected end of JSON input")
  ∧ ∃ resp log,
      serve_generate sample_client stub_world malformed_request = (inr resp, log)
      ∧ status resp = 500
      ∧ member "error" (body resp) = Some (JStr "Code generation failed")
      ∧ member "message" (body resp)
        = Some (JStr "Unexpected end of JSON input")
      ∧ member "details" (body resp) = None
      ∧ generateObject_calls log = []
      ∧ console_errors log
        = [ThrownError "SyntaxError" "Unexpected end of JSON input"].
Proof.
  split; [reflexivity|].
  apply (unreadable_body_is_server_error sample_client stub_world
           malformed_request "SyntaxError" "Unexpected end of JSON input").
  reflexivity.
Defined.

(** X3.  The handler calls [generateObject] at most once per request,
    never again after a failure: once, with the options built from the
    validated specification, when the body is JSON that the validator
    accepts, and not at all otherwise. *)
Theorem generation_called_once_iff_valid client w req :
  generateObject_calls (snd (serve_generate client w req))
  = match req_json req with
    | inr document =>
        match safeParse openApiSchema document with
        | SafeParseSuccess openapiSpec =>
            [generateObject_options client openapiSpec]
        | SafeParseError _ => []
        end
    | inl _ => []
    end.
Proof.
  destruct (serve_generate_handled client w req)
    as [e Hreq|document error Hreq Hparse
       |document openapiSpec reason Hreq Hparse _
       |document openapiSpec generatedFiles info title version Hreq Hparse];
    rewrite Hreq, ?Hparse; reflexivity.
Qed.

(** X4.  [console.error] is called exactly once when the response has
    status 500 and not at all otherwise. *)
Theorem errors_logged_exactly_on_500 client w req :
  ∃ resp log,
    serve_generate client w req = (inr resp, log)
    ∧ length (console_errors log)
      = if (status resp =? 500)%Z then 1%nat else 0%nat.
Proof.
  destruct (serve_generate_handled client w req); eexists _, _;
    (split; [reflexivity|]); reflexivity.
Qed.

Lemma Object_keys_obj_set key v props :
  Object_keys (obj_set key v props)
  = if bool_decide (key ∈ Object_keys props) then Object_keys props
    else Object_keys props ++ [key].
Proof.
  unfold Object_keys. induction props as [|[k w] rest IH]; [done|].
  cbn [obj_set map fst].
  destruct (String.eqb_spec k key) as [->|Hne].
  - cbn [map fst]. rewrite bool_decide_eq_true_2; [done|by left].
  - cbn [map fst]. rewrite IH. destruct (bool_decide (key ∈ map fst rest)) eqn:E.
    + apply bool_decide_eq_true in E.
      rewrite bool_decide_eq_true_2; [done|by right].
    + apply bool_decide_eq_false in E.
      rewrite bool_decide_eq_false_2; [done|].
      rewrite not_elem_of_cons. split; [congruence|done].
Qed.

Lemma record_copy_into_keys entries : ∀ finalObject,
  NoDup (Object_keys finalObject) →
  "__proto__" ∉ Object_keys finalObject →
  NoDup (Object_keys (record_copy_into finalObject entries))
  ∧ "__proto__" ∉ Object_keys (record_copy_into finalObject entries).
Proof.
  induction entries as [|[k v] rest IH]; intros finalObject Hnodup Hproto;
    [done|].
  unfold record_copy_into. cbn [fold_left].
  fold (record_copy_into
          (if String.eqb k "__proto__" then finalObject
           else obj_set k v finalObject) rest).
  destruct (String.eqb_spec k "__proto__") as [->|Hk]; [by apply IH|].
  apply IH; rewrite Object_keys_obj_set; case_bool_decide; try done.
  - apply NoDup_app. split_and!; [done| |apply NoDup_singleton].
    intros x Hx Hin. apply list_elem_of_singleton in Hin. by subst.
  - rewrite elem_of_app, list_elem_of_singleton. intros [?|?]; [done|].
    by subst.
Qed.

Lemma record_copy_is_plain entries : plain_record (record_copy entries) = true.
Proof.
  unfold plain_record, record_copy.
  destruct (record_copy_into_keys entries []) as [Hnodup Hproto].
  - constructor.
  - apply not_elem_of_nil.
  - rewrite andb_true_iff. split; by apply bool_decide_eq_true.
Qed.

Lemma declared_fields_of_valid document :
  structurally_valid document = true →
  declared_only (declared_fields document)
  ∧ structurally_valid (declared_fields document) = true.
Proof.
  intros Hvalid.
  destruct (valid_document_shape _ Hvalid)
    as (props & openapi & info & title & version & paths & -> & Ho & Hre & Hi
        & Ht & Hv & Hp & Hc & ->).
  unfold components_ok in Hc.
  destruct (obj_get "components" props) as [[| | | | |components]|];
    try done; cbn [declared_components declared_member].
  - destruct (obj_get "schemas" components) as [[| | | | |schemas]|];
      try done; cbn [declared_mapping declared_member].
    + split.
      * exists openapi, title, version, (record_copy paths),
          [("components", JObj [("schemas", JObj (record_copy schemas))])].
        split_and!; [done|apply record_copy_is_plain|].
        right. right. exists (record_copy schemas).
        split; [done|apply record_copy_is_plain].
      * cbn. by rewrite Hre.
    + split.
      * exists openapi, title, version, (record_copy paths),
          [("components", JObj [])].
        split_and!; [done|apply record_copy_is_plain|]. right. by left.
      * cbn. by rewrite Hre.
  - split.
    + exists openapi, title, version, (record_copy paths), [].
      split_and!; [done|apply record_copy_is_plain|]. by left.
    + cbn. by rewrite Hre.
Qed.

(** X5.  Validation is idempotent: the value the validator returns for
    an accepted document is itself accepted, and validating it returns
    it unchanged. *)
Theorem validation_is_idempotent document openapiSpec :
  safeParse openApiSchema document = SafeParseSuccess openapiSpec →
  ∃ validated,
    openapiSpec = Some validated
    ∧ safeParse openApiSchema validated = SafeParseSuccess (Some validated).
Proof.
  intros Hparse. rewrite safeParse_openApiSchema in Hparse.
  destruct (structurally_valid document) eqn:Hvalid; [|done].
  injection Hparse as <-. exists (declared_fields document). split; [done|].
  destruct (declared_fields_of_valid document Hvalid) as [Honly Hvalid'].
  rewrite safeParse_openApiSchema, Hvalid'.
  by rewrite (declared_fields_declared_only _ Honly).
Qed.

Lemma validation_is_idempotent_witness :
  safeParse openApiSchema described_document
  = SafeParseSuccess (Some minimal_document)
  ∧ ∃ validated,
      Some minimal_document = Some validated
      ∧ safeParse openApiSchema validated = SafeParseSuccess (Some validated).
Proof.
  split; [reflexivity|].
  apply (validation_is_idempotent described_document (Some minimal_document)).
  reflexivity.
Defined.

Lemma object_pairs_ext path props1 props2 shape :
  (∀ key, key ∈ map fst shape → obj_get key props1 = obj_get key props2) →
  object_pairs path props1 shape = object_pairs path props2 shape.
Proof.
  induction shape as [|[key keyValidator] rest IH]; intros Hsame; [done|].
  cbn [object_pairs]. unfold obj_has.
  rewrite (Hsame key) by (cbn; by left).
  rewrite IH; [done|]. intros k Hk. apply Hsame. cbn. by right.
Qed.

Lemma safeParse_same_declared_fields props1 props2 :
  (∀ key, key ∈ declared_keys → obj_get key props1 = obj_get key props2) →
  safeParse openApiSchema (JObj props1) = safeParse openApiSchema (JObj props2).
Proof.
  intros Hsame. unfold safeParse, openApiSchema, z.object at 1 3.
  rewrite !_parse_object.
  match goal with
  | |- context [object_pairs [] props1 ?shape] =>
      rewrite (object_pairs_ext [] props1 props2 shape)
  end; [done|].
  intros key Hkey. apply Hsame. exact Hkey.
Qed.

Lemma serve_generate_same_validation client w req1 req2 document1 document2 :
  req_json req1 = inr document1 →
  req_json req2 = inr document2 →
  safeParse openApiSchema document1 = safeParse openApiSchema document2 →
  serve_generate client w req1 = serve_generate client w req2.
Proof.
  intros Hreq1 Hreq2 Hsame. unfold_handler. rewrite Hreq1, Hreq2.
  cbv beta iota delta [ret]. by rewrite Hsame.
Qed.

(** X6.  The answer to a request depends on the declared fields of its
    document only: two object documents with the same [openapi], [info],
    [paths] and [components] give the same response and the same events,
    whatever other keys they hold and in whatever order. *)
Theorem undeclared_keys_do_not_matter client w props1 props2 :
  (∀ key, key ∈ declared_keys → obj_get key props1 = obj_get key props2) →
  serve_generate client w (mkRequest (inr (JObj props1)))
  = serve_generate client w (mkRequest (inr (JObj props2))).
Proof.
  intros Hsame.
  apply (serve_generate_same_validation client w _ _ (JObj props1) (JObj props2));
    [done|done|].
  by apply safeParse_same_declared_fields.
Qed.

Lemma undeclared_keys_do_not_matter_witness :
  (∀ key, key ∈ declared_keys →
          obj_get key
            [("servers", JArr []);
             ("paths", JObj []);
             ("info", JObj [("title", JStr "Blog"); ("version", JStr "1.0.0")]);
             ("openapi", JStr "3.0.0")]
          = obj_get key
              [("openapi", JStr "3.0.0");
               ("info", JObj [("title", JStr "Blog");
                              ("version", JStr "1.0.0")]);
               ("paths", JObj [])])
  ∧ serve_generate sample_client stub_world (mkRequest (inr reordered_document))
    = serve_generate sample_client stub_world (mkRequest (inr minimal_document)).
Proof.
  assert (∀ key, key ∈ declared_keys →
          obj_get key
            [("servers", JArr []);
             ("paths", JObj []);
             ("info", JObj [("title", JStr "Blog"); ("version", JStr "1.0.0")]);
             ("openapi", JStr "3.0.0")]
          = obj_get key
              [("openapi", JStr "3.0.0");
               ("info", JObj [("title", JStr "Blog");
                              ("version", JStr "1.0.0")]);
               ("paths", JObj [])]) as Hsame.
  { intros key Hkey. unfold declared_keys in Hkey.
    rewrite !elem_of_cons, elem_of_nil in Hkey.
    destruct Hkey as [->|[->|[->|[->|[]]]]]; reflexivity. }
  split; [exact Hsame|].
  exact (undeclared_keys_do_not_matter sample_client stub_world _ _ Hsame).
Defined.

(** X7.  In every response with status 200 the envelope has the keys
    [success], [metadata] and [files], [success] is [true],
    [metadata.apiTitle] and [metadata.apiVersion] are [info.title] and
    [info.version] of the submitted document, and [metadata.generatedAt]
    is a date-time that [Date.parse] reads back as the time of the
    clock. *)
Theorem success_metadata_echoes_document client w req resp log :
  Date.valid_time (world_now w) = true →
  serve_generate client w req = (inr resp, log) →
  status resp = 200 →
  ∃ document info title version generatedAt,
    req_json req = inr document
    ∧ member "info" document = Some (JObj info)
    ∧ obj_get "title" info = Some (JStr title)
    ∧ obj_get "version" info = Some (JStr version)
    ∧ envelope_keys resp = ["success"; "metadata"; "files"]
    ∧ member "success" (body resp) = Some (JBool true)
    ∧ metadata_member "apiTitle" resp = Some (JStr title)
    ∧ metadata_member "apiVersion" resp = Some (JStr version)
    ∧ metadata_member "generatedAt" resp = Some (JStr generatedAt)
    ∧ Date.parse generatedAt = Some (world_now w).
Proof.
  intros Hclock Hrun Hstatus.
  pose proof (serve_generate_handled client w req) as Hhandled.
  rewrite Hrun in Hhandled.
  inversion Hhandled
    as [| |
        |document openapiSpec generatedFiles info title version
           Hreq _ _ Hinfo Htitle Hversion];
    subst; try done.
  exists document, info, title, version, (Date.toISOString (world_now w)).
  split_and!; try done. by apply DateFacts.parse_toISOString.
Qed.

Lemma success_metadata_echoes_document_witness :
  Date.valid_time (world_now stub_world) = true
  ∧ serve_generate sample_client stub_world (mkRequest (inr minimal_document))
    = (inr (success_response "Blog" "1.0.0" sample_now sample_files),
       [EvGenerateObject
          (generateObject_options sample_client (Some minimal_document))])
  ∧ status (success_response "Blog" "1.0.0" sample_now sample_files) = 200
  ∧ ∃ document info title version generatedAt,
      req_json (mkRequest (inr minimal_document)) = inr document
      ∧ member "info" document = Some (JObj info)
      ∧ obj_get "title" info = Some (JStr title)
      ∧ obj_get "version" info = Some (JStr version)
      ∧ envelope_keys (success_response "Blog" "1.0.0" sample_now sample_files)
        = ["success"; "metadata"; "files"]
      ∧ member "success"
          (body (success_response "Blog" "1.0.0" sample_now sample_files))
        = Some (JBool true)
      ∧ metadata_member "apiTitle"
          (success_response "Blog" "1.0.0" sample_now sample_files)
        = Some (JStr title)
      ∧ metadata_member "apiVersion"
          (success_response "Blog" "1.0.0" sample_now sample_files)
        = Some (JStr version)
      ∧ metadata_member "generatedAt"
          (success_response "Blog" "1.0.0" sample_now sample_files)
        = Some (JStr generatedAt)
      ∧ Date.parse generatedAt = Some (world_now stub_world).
Proof.
  assert (serve_generate sample_client stub_world
            (mkRequest (inr minimal_document))
          = (inr (success_response "Blog" "1.0.0" sample_now sample_files),
             [EvGenerateObject
                (generateObject_options sample_client (Some minimal_document))]))
    as Hrun by (vm_compute; reflexivity).
  split; [reflexivity|]. split; [exact Hrun|]. split; [reflexivity|].
  exact (success_metadata_echoes_document sample_client stub_world
           (mkRequest (inr minimal_document)) _ _ eq_refl Hrun eq_refl).
Defined.

(** X8.  The validator accepts a document exactly when it meets the
    structural contract: it is an object, [openapi] is a string matching
    the version pattern, [info] is an object with string [title] and
    [version], [paths] is an object, and [components] is absent or an
    object whose [schemas] is absent or an object. *)
Theorem validator_accepts_iff_contract document :
  success (safeParse openApiSchema document) = structurally_valid document.
Proof.
  rewrite safeParse_openApiSchema. by destruct (structurally_valid document).
Qed.

(** X9.  For a document whose other fields are valid, the accepted
    values of [openapi] are exactly the strings ["3." minor "." patch]
    with [minor] and [patch] non-empty runs of decimal digits: leading
    zeros pass, a missing patch number, another major version or any
    character after the patch number do not. *)
Theorem accepted_versions props s :
  obj_get "openapi" props = Some (JStr s) →
  info_ok (obj_get "info" props) = true →
  is_mapping (obj_get "paths" props) = true →
  components_ok (obj_get "components" props) = true →
  success (safeParse openApiSchema (JObj props)) = true
  ↔ ∃ minor patch,
      s = "3." +:+ minor +:+ "." +:+ patch
      ∧ minor ≠ EmptyString ∧ all_digits minor = true
      ∧ patch ≠ EmptyString ∧ all_digits patch = true.
Proof.
  intros Ho Hi Hp Hc. rewrite <- openapi_version_re_spec.
  rewrite safeParse_openApiSchema. cbn [structurally_valid].
  rewrite Ho, Hi, Hp, Hc. cbn [openapi_ok].
  by destruct (RegExp_test_anchored openapi_version_re s).
Qed.

(** X10.  A document that is no object ([null], a boolean, a number, a
    string, an array) is rejected with a single issue at the root,
    ["Expected object, received <type>"], and the 400 response reports
    it under [details._errors]. *)
Theorem non_object_document_root_error document :
  is_mapping (Some document) = false →
  safeParse openApiSchema document
  = SafeParseError
      (mkZodError [mkIssue (invalid_type PT_object
                              (getParsedType (Some document))) []
                     ("Expected object, received "
                      +:+ ZodParsedType_name (getParsedType (Some document)))])
  ∧ ∀ client w,
      serve_generate client w (mkRequest (inr document))
      = (inr (mkResponse 400
                (JObj [("error", JStr "Invalid OpenAPI specification");
                       ("details",
                        JObj [("_errors",
                               JArr [JStr ("Expected object, received "
                                           +:+ ZodParsedType_name
                                                 (getParsedType
                                                    (Some document)))])])])),
         []).
Proof.
  intros Hno.
  assert (safeParse openApiSchema document
          = SafeParseError
              (mkZodError [mkIssue (invalid_type PT_object
                                      (getParsedType (Some document))) []
                             ("Expected object, received "
                              +:+ ZodParsedType_name
                                    (getParsedType (Some document)))]))
    as Hparse by by destruct document.
  split; [done|]. intros client w.
  rewrite (serve_generate_invalid client w (mkRequest (inr document))
             document _ eq_refl Hparse).
  by destruct document.
Qed.

Lemma accepted_versions_witness :
  obj_get "openapi"
    [("openapi", JStr "3.10.02");
     ("info", JObj [("title", JStr "Blog"); ("version", JStr "1.0.0")]);
     ("paths", JObj [])] = Some (JStr "3.10.02")
  ∧ info_ok
      (obj_get "info"
         [("openapi", JStr "3.10.02");
          ("info", JObj [("title", JStr "Blog"); ("version", JStr "1.0.0")]);
          ("paths", JObj [])]) = true
  ∧ is_mapping
      (obj_get "paths"
         [("openapi", JStr "3.10.02");
          ("info", JObj [("title", JStr "Blog"); ("version", JStr "1.0.0")]);
          ("paths", JObj [])]) = true
  ∧ components_ok
      (obj_get "components"
         [("openapi", JStr "3.10.02");
          ("info", JObj [("title", JStr "Blog"); ("version", JStr "1.0.0")]);
          ("paths", JObj [])]) = true
  ∧ (success
       (safeParse openApiSchema
          (JObj [("openapi", JStr "3.10.02");
                 ("info", JObj [("title", JStr "Blog");
                                ("version", JStr "1.0.0")]);
                 ("paths", JObj [])])) = true
     ↔ ∃ minor patch,
         "3.10.02" = "3." +:+ minor +:+ "." +:+ patch
         ∧ minor ≠ EmptyString ∧ all_digits minor = true
         ∧ patch ≠ EmptyString ∧ all_digits patch = true).
Proof.
  do 4 (split; [reflexivity|]).
  apply (accepted_versions
           [("openapi", JStr "3.10.02");
            ("info", JObj [("title", JStr "Blog"); ("version", JStr "1.0.0")]);
            ("paths", JObj [])] "3.10.02"); reflexivity.
Defined.

Lemma non_object_document_root_error_witness :
  is_mapping (Some JNull) = false
  ∧ safeParse openApiSchema JNull
    = SafeParseError
        (mkZodError [mkIssue (invalid_type PT_object
                                (getParsedType (Some JNull))) []
                       ("Expected object, received "
                        +:+ ZodParsedType_name (getParsedType (Some JNull)))])
  ∧ ∀ client w,
      serve_generate client w (mkRequest (inr JNull))
      = (inr (mkResponse 400
                (JObj [("error", JStr "Invalid OpenAPI specification");
                       ("details",
                        JObj [("_errors",
                               JArr [JStr ("Expected object, received "
                                           +:+ ZodParsedType_name
                                                 (getParsedType
                                                    (Some JNull)))])])])),
         []).
Proof.
  split; [reflexivity|].
  apply (non_object_document_root_error JNull). reflexivity.
Defined.

(** X11.  With a non-empty [GOOGLE_API_KEY] the process reaches [serve]:
    the key is what [google] is called with, the port is taken from
    [PORT], with 3000 when [PORT] is unset or empty; the variable
    [GOOGLE_GENERATIVE_AI_API_KEY] has no effect on the start. *)
Theorem startup_with_key (process_env : gmap string string) key :
  process_env !! "GOOGLE_API_KEY" = Some key →
  key ≠ EmptyString →
  startup process_env
  = inr (mkServe (google (Some key))
           (match process_env !! "PORT" with
            | Some port =>
                if String.eqb port EmptyString then PortNumber 3000
                else PortText port
            | None => PortNumber 3000
            end))
  ∧ ∀ value,
      startup (<["GOOGLE_GENERATIVE_AI_API_KEY" := value]> process_env)
      = startup process_env.
Proof.
  intros Hkey Hne.
  assert (truthy (Some key) = true) as Htruthy.
  { cbn. by destruct (String.eqb_spec key EmptyString). }
  split.
  - unfold startup, env. cbn [GOOGLE_API_KEY PORT]. rewrite Hkey, Htruthy.
    cbn [negb]. do 2 f_equal. unfold or_else, truthy.
    destruct (process_env !! "PORT") as [port|]; [|done].
    by destruct (String.eqb port EmptyString).
  - intros value. unfold startup, env.
    cbn [GOOGLE_API_KEY PORT]. by rewrite !lookup_insert_ne.
Qed.

Lemma startup_with_key_witness :
  (<["GOOGLE_API_KEY" := "sample-key"]> (<["PORT" := EmptyString]> ∅)
     : gmap string string) !! "GOOGLE_API_KEY" = Some "sample-key"
  ∧ "sample-key" ≠ EmptyString
  ∧ startup (<["GOOGLE_API_KEY" := "sample-key"]> (<["PORT" := EmptyString]> ∅))
    = inr (mkServe (google (Some "sample-key"))
             (match (<["GOOGLE_API_KEY" := "sample-key"]>
                       (<["PORT" := EmptyString]> ∅) : gmap string string)
                      !! "PORT" with
              | Some port =>
                  if String.eqb port EmptyString then PortNumber 3000
                  else PortText port
              | None => PortNumber 3000
              end))
  ∧ ∀ value,
      startup (<["GOOGLE_GENERATIVE_AI_API_KEY" := value]>
                 (<["GOOGLE_API_KEY" := "sample-key"]>
                    (<["PORT" := EmptyString]> ∅)))
      = startup (<["GOOGLE_API_KEY" := "sample-key"]>
                   (<["PORT" := EmptyString]> ∅)).
Proof.
  assert ("sample-key" ≠ EmptyString) as Hne by (intros H; discriminate H).
  split; [reflexivity|]. split; [exact Hne|].
  exact (startup_with_key
           (<["GOOGLE_API_KEY" := "sample-key"]> (<["PORT" := EmptyString]> ∅))
           "sample-key" eq_refl Hne).
Defined.

(** X12.  [GET /health] answers 200 with the keys [status],
    [timestamp] and [environment]: the status is ["healthy"], the
    timestamp is a date-time that [Date.parse] reads back as the time of
    the clock, and the environment is [NODE_ENV], or ["development"]
    when [NODE_ENV] is unset or empty, so never the empty string. *)
Theorem health_response (process_env : gmap string string) w :
  Date.valid_time (world_now w) = true →
  ∃ resp timestamp environment,
    run_handler (health_handler (env process_env)) w = (inr resp, [])
    ∧ status resp = 200
    ∧ envelope_keys resp = ["status"; "timestamp"; "environment"]
    ∧ member "status" (body resp) = Some (JStr "healthy")
    ∧ member "timestamp" (body resp) = Some (JStr timestamp)
    ∧ Date.parse timestamp = Some (world_now w)
    ∧ member "environment" (body resp) = Some (JStr environment)
    ∧ environment ≠ EmptyString
    ∧ environment
      = match process_env !! "NODE_ENV" with
        | Some mode =>
            if String.eqb mode EmptyString then "development" else mode
        | None => "development"
        end.
Proof.
  intros Hclock.
  exists (mkResponse 200
            (JObj [("status", JStr "healthy");
                   ("timestamp", JStr (Date.toISOString (world_now w)));
                   ("environment", JStr (NODE_ENV (env process_env)))])),
    (Date.toISOString (world_now w)), (NODE_ENV (env process_env)).
  split_and!; try reflexivity.
  - by apply DateFacts.parse_toISOString.
  - cbn [env NODE_ENV]. unfold or_else, truthy.
    destruct (process_env !! "NODE_ENV") as [mode|]; [|done].
    destruct (String.eqb_spec mode EmptyString); [done|]. by cbn.
  - cbn [env NODE_ENV]. unfold or_else, truthy.
    destruct (process_env !! "NODE_ENV") as [mode|]; [|done].
    by destruct (String.eqb mode EmptyString).
Qed.

Lemma health_response_witness :
  Date.valid_time (world_now stub_world) = true
  ∧ ∃ resp timestamp environment,
      run_handler
        (health_handler (env (<["NODE_ENV" := EmptyString]> ∅))) stub_world
      = (inr resp, [])
      ∧ status resp = 200
      ∧ envelope_keys resp = ["status"; "timestamp"; "environment"]
      ∧ member "status" (body resp) = Some (JStr "healthy")
      ∧ member "timestamp" (body resp) = Some (JStr timestamp)
      ∧ Date.parse timestamp = Some (world_now stub_world)
      ∧ member "environment" (body resp) = Some (JStr environment)
      ∧ environment ≠ EmptyString
      ∧ environment
        = match (<["NODE_ENV" := EmptyString]> ∅ : gmap string string)
                  !! "NODE_ENV" with
          | Some mode =>
              if String.eqb mode EmptyString then "development" else mode
          | None => "development"
          end.
Proof.
  split; [reflexivity|].
  apply (health_response (<["NODE_ENV" := EmptyString]> ∅) stub_world).
  reflexivity.
Defined.

(** X13.  The document served by [GET /sample-spec] is valid input for
    [POST /generate]: the validator accepts it, keeping its [paths] and
    [components] and dropping the description of its [info], and the
    request is never answered with 400 but reaches [generateObject] with
    the validated sample. *)
Theorem sample_spec_is_valid_input client w :
  run_handler sample_spec_handler w = (inr (mkResponse 200 sampleSpec), [])
  ∧ safeParse openApiSchema sampleSpec
    = SafeParseSuccess (Some sampleSpec_validated)
  ∧ member "info" sampleSpec_validated
    = Some (JObj [("title", JStr "Sample Blog API"); ("version", JStr "1.0.0")])
  ∧ member "paths" sampleSpec_validated = member "paths" sampleSpec
  ∧ member "components" sampleSpec_validated = member "components" sampleSpec
  ∧ ∃ resp log,
      serve_generate client w (mkRequest (inr sampleSpec)) = (inr resp, log)
      ∧ status resp ≠ 400
      ∧ generateObject_calls log
        = [generateObject_options client (Some sampleSpec_validated)].
Proof.
  assert (safeParse openApiSchema sampleSpec
          = SafeParseSuccess (Some sampleSpec_validated)) as Hparse
    by (vm_compute; reflexivity).
  split; [reflexivity|]. split; [exact Hparse|].
  do 3 (split; [reflexivity|]).
  pose proof (generateObject_calls_of_request client w
                (mkRequest (inr sampleSpec)) sampleSpec _ eq_refl Hparse)
    as Hcalls.
  destruct (serve_generate_handled client w (mkRequest (inr sampleSpec)))
    as [e Hreq|document error Hreq Hparse'| |]; eexists _, _;
    (split; [reflexivity|]); (split; [|exact Hcalls]); done.
Qed.

Lemma obj_get_obj_set_is_Some key key' v props :
  is_Some (obj_get key props) → is_Some (obj_get key (obj_set key' v props)).
Proof.
  intros H. destruct (decide (key = key')) as [->|Hne].
  - rewrite obj_get_obj_set_eq. by eexists.
  - by rewrite obj_get_obj_set_ne.
Qed.

Lemma format_issue_object path message props :
  ∃ props',
    format_issue path message (JObj props) = JObj props'
    ∧ (∀ key, is_Some (obj_get key props) → is_Some (obj_get key props'))
    ∧ (∀ key rest, path = key :: rest → is_Some (obj_get key props')).
Proof.
  destruct path as [|el rest]; cbn [format_issue push_error].
  - destruct (obj_get "_errors" props) as [[| | | |errors|]|];
      eexists; (split; [reflexivity|]); (split; [|done]); try done.
    intros key. apply obj_get_obj_set_is_Some.
  - eexists. split; [reflexivity|]. split.
    + intros key. apply obj_get_obj_set_is_Some.
    + intros key rest' [= <- <-]. rewrite obj_get_obj_set_eq. by eexists.
Qed.

Lemma fold_format_is_Some key issues : ∀ props,
  is_Some (obj_get key props) ∨ Exists (under_key key) issues →
  ∃ props',
    fold_left (fun fieldErrors issue =>
                 format_issue (issue_path issue) (issue_message issue)
                              fieldErrors)
              issues (JObj props) = JObj props'
    ∧ is_Some (obj_get key props').
Proof.
  induction issues as [|issue rest IH]; intros props H.
  - destruct H as [H|H]; [by exists props|by apply Exists_nil in H].
  - cbn [fold_left].
    destruct (format_issue_object (issue_path issue) (issue_message issue) props)
      as (props1 & -> & Hkeep & Hnew).
    apply IH. destruct H as [H|H]; [left; by apply Hkeep|].
    apply Exists_cons in H as [[rest' Hpath]|H]; [|by right].
    left. by eapply Hnew.
Qed.

Lemma fst_parse_info_nil path data :
  fst (_parse (z.object [("title", z.string); ("version", z.string)]) path data)
  = [] ↔ info_ok data = true.
Proof.
  destruct data as [[]|]; try done.
  unfold z.object. rewrite _parse_object. cbn [object_pairs].
  rewrite !_parse_string. unfold info_ok.
  by destruct (obj_get "title" props) as [[]|],
              (obj_get "version" props) as [[]|].
Qed.

Lemma fst_parse_components_nil path data :
  fst (_parse (z.optional (z.object [("schemas", z.optional (z.record z.any))]))
         path data)
  = [] ↔ components_ok data = true.
Proof.
  rewrite _parse_optional.
  destruct data as [[]|]; try done.
  unfold z.object. rewrite _parse_object. cbn [object_pairs].
  rewrite _parse_optional. unfold components_ok.
  destruct (obj_get "schemas" props) as [v|] eqn:E; [|done].
  rewrite _parse_record_any. by destruct v.
Qed.

Lemma fst_parse_openapi_nil path data :
  fst (_parse (z.regex openapi_version_re "Must be OpenAPI 3.x.x" z.string)
         path data)
  = [] ↔ openapi_ok data = true.
Proof.
  rewrite _parse_openapi_field. unfold openapi_ok.
  destruct data as [[| | |s| |]|]; try done.
  by destruct (RegExp_test_anchored openapi_version_re s).
Qed.

Lemma fst_parse_paths_nil path data :
  fst (_parse (z.record z.any) path data) = [] ↔ is_mapping data = true.
Proof. rewrite _parse_record_any. by destruct data as [[]|]. Qed.

Lemma extends_under_key key issue : extends [key] issue → under_key key issue.
Proof. intros [suffix H]. by exists suffix. Qed.

(** The issues of an object document, field by field. *)
Lemma document_issues_by_field props :
  ∃ Io Ii Ip Ic,
    fst (_parse openApiSchema [] (Some (JObj props))) = Io ++ Ii ++ Ip ++ Ic
    ∧ Io = fst (_parse (z.regex openapi_version_re "Must be OpenAPI 3.x.x"
                          z.string)
                  ["openapi"] (obj_get "openapi" props))
    ∧ Ii = fst (_parse (z.object [("title", z.string); ("version", z.string)])
                  ["info"] (obj_get "info" props))
    ∧ Ip = fst (_parse (z.record z.any) ["paths"] (obj_get "paths" props))
    ∧ Forall (under_key "openapi") Io
    ∧ Forall (under_key "info") Ii
    ∧ Forall (under_key "paths") Ip
    ∧ Forall (under_key "components") Ic
    ∧ (Io = [] ↔ openapi_ok (obj_get "openapi" props) = true)
    ∧ (Ii = [] ↔ info_ok (obj_get "info" props) = true)
    ∧ (Ip = [] ↔ is_mapping (obj_get "paths" props) = true)
    ∧ (Ic = [] ↔ components_ok (obj_get "components" props) = true).
Proof.
  unfold openApiSchema, z.object at 1. rewrite _parse_object.
  cbn [object_pairs app].
  pose proof (_parse_issue_paths
                (z.regex openapi_version_re "Must be OpenAPI 3.x.x" z.string)
                ["openapi"] (obj_get "openapi" props)) as H1.
  pose proof (_parse_issue_paths
                (z.object [("title", z.string); ("version", z.string)])
                ["info"] (obj_get "info" props)) as H2.
  pose proof (_parse_issue_paths (z.record z.any)
                ["paths"] (obj_get "paths" props)) as H3.
  pose proof (_parse_issue_paths
                (z.optional
                   (z.object [("schemas", z.optional (z.record z.any))]))
                ["components"] (obj_get "components" props)) as H4.
  pose proof (fst_parse_openapi_nil ["openapi"] (obj_get "openapi" props)) as N1.
  pose proof (fst_parse_info_nil ["info"] (obj_get "info" props)) as N2.
  pose proof (fst_parse_paths_nil ["paths"] (obj_get "paths" props)) as N3.
  pose proof (fst_parse_components_nil ["components"]
                (obj_get "components" props)) as N4.
  destruct (_parse (z.regex _ _ _) _ _) as [i1 r1].
  destruct (_parse (z.object _) _ _) as [i2 r2].
  destruct (_parse (z.record _) _ _) as [i3 r3].
  destruct (_parse (z.optional _) _ _) as [i4 r4].
  cbn [fst] in *. exists i1, i2, i3, i4. rewrite app_nil_r.
  split_and!; try done;
    (eapply Forall_impl; [eassumption|]); apply extends_under_key.
Qed.

Lemma field_issues_other key k (I : list ZodIssue) (ok : bool) :
  Forall (under_key k) I → (I = [] ↔ ok = true) → (key = k → ok = true) →
  Forall (under_other_key key) I.
Proof.
  intros Hunder Hnil Hok. destruct (decide (key = k)) as [->|Hne].
  - rewrite (proj2 Hnil (Hok eq_refl)). constructor.
  - eapply Forall_impl; [exact Hunder|]. intros issue [rest Hpath].
    exists k, rest. split; [done|congruence].
Qed.

Lemma field_issues_exist k (I : list ZodIssue) (ok : bool) :
  Forall (under_key k) I → (I = [] ↔ ok = true) → ok = false →
  Exists (under_key k) I.
Proof.
  intros Hunder Hnil Hok. destruct I as [|issue rest].
  - rewrite (proj1 Hnil eq_refl) in Hok. discriminate Hok.
  - left. by apply Forall_cons in Hunder as [? _].
Qed.

(** X14.  For an object document that is rejected, [details] has an
    entry for a key exactly when that key is a declared field that fails
    its check: every failing field is reported, in one pass, and no
    field that passes, and no other key, is. *)
Theorem details_name_exactly_the_failing_fields props error key :
  safeParse openApiSchema (JObj props) = SafeParseError error →
  key ≠ "_errors" →
  is_Some (member key (ZodError_format error)) ↔ field_ok key props = false.
Proof.
  intros Hparse Hkey. rewrite safeParse_openApiSchema in Hparse.
  destruct (structurally_valid (JObj props)); [done|].
  replace error
    with (mkZodError (fst (_parse openApiSchema [] (Some (JObj props)))))
    by congruence.
  clear Hparse.
  destruct (document_issues_by_field props)
    as (Io & Ii & Ip & Ic & -> & _ & _ & _ & Uo & Ui & Up & Uc
        & No & Ni & Np & Nc).
  unfold ZodError_format, empty_field_errors. cbn [issues]. split.
  - intros Hsome. destruct (field_ok key props) eqn:Hok; [|done]. exfalso.
    unfold field_ok in Hok.
    assert (Forall (under_other_key key) (Io ++ Ii ++ Ip ++ Ic)) as Hother.
    { rewrite !Forall_app. split_and!.
      - apply (field_issues_other key "openapi" Io _ Uo No).
        intros ->. exact Hok.
      - apply (field_issues_other key "info" Ii _ Ui Ni).
        intros ->. exact Hok.
      - apply (field_issues_other key "paths" Ip _ Up Np).
        intros ->. exact Hok.
      - apply (field_issues_other key "components" Ic _ Uc Nc).
        intros ->. exact Hok. }
    destruct (fold_format_other key _ [("_errors", JArr [])] Hother)
      as (props' & E & Hget).
    rewrite E in Hsome. cbn [member] in Hsome. rewrite Hget in Hsome.
    cbn [obj_get] in Hsome.
    destruct (String.eqb_spec "_errors" key); [congruence|].
    by destruct Hsome.
  - intros Hok. unfold field_ok in Hok.
    assert (Exists (under_key key) (Io ++ Ii ++ Ip ++ Ic)) as Hexists.
    { rewrite !Exists_app.
      destruct (String.eqb_spec key "openapi") as [->|_].
      { left. by apply (field_issues_exist "openapi" Io _ Uo No). }
      destruct (String.eqb_spec key "info") as [->|_].
      { right. left. by apply (field_issues_exist "info" Ii _ Ui Ni). }
      destruct (String.eqb_spec key "paths") as [->|_].
      { right. right. left. by apply (field_issues_exist "paths" Ip _ Up Np). }
      destruct (String.eqb_spec key "components") as [->|_]; [|done].
      right. right. right.
      by apply (field_issues_exist "components" Ic _ Uc Nc). }
    destruct (fold_format_is_Some key _ [("_errors", JArr [])]
                (or_intror Hexists)) as (props' & -> & Hsome).
    exact Hsome.
Qed.

Lemma details_name_exactly_the_failing_fields_witness :
  safeParse openApiSchema
    (JObj [("openapi", JStr "2.0");
           ("info", JObj [("title", JStr "X"); ("version", JStr "1")]);
           ("paths", JObj [])])
  = SafeParseError
      (mkZodError [mkIssue invalid_string_regex ["openapi"]
                     "Must be OpenAPI 3.x.x"])
  ∧ "paths" ≠ "_errors"
  ∧ (is_Some
       (member "paths"
          (ZodError_format
             (mkZodError [mkIssue invalid_string_regex ["openapi"]
                            "Must be OpenAPI 3.x.x"])))
     ↔ field_ok "paths"
         [("openapi", JStr "2.0");
          ("info", JObj [("title", JStr "X"); ("version", JStr "1")]);
          ("paths", JObj [])] = false).
Proof.
  assert ("paths" ≠ "_errors") as Hkey by (intros H; discriminate H).
  split; [reflexivity|]. split; [exact Hkey|].
  exact (details_name_exactly_the_failing_fields
           [("openapi", JStr "2.0");
            ("info", JObj [("title", JStr "X"); ("version", JStr "1")]);
            ("paths", JObj [])] _ "paths" eq_refl Hkey).
Defined.

Lemma details_of_single_issue key L1 issue L2 :
  key ≠ "_errors" →
  Forall (under_other_key key) L1 →
  Forall (under_other_key key) L2 →
  issue_path issue = [key] →
  member key (ZodError_format (mkZodError (L1 ++ issue :: L2)))
  = Some (JObj [("_errors", JArr [JStr (issue_message issue)])]).
Proof.
  intros Hkey H1 H2 Hpath. unfold ZodError_format. cbn [issues].
  rewrite fold_left_app. unfold empty_field_errors at 1.
  destruct (fold_format_other key L1 [("_errors", JArr [])] H1)
    as (props1 & -> & Hget1).
  assert (obj_get key props1 = None) as Hnone.
  { rewrite Hget1. cbn [obj_get].
    by destruct (String.eqb_spec "_errors" key). }
  cbn [fold_left]. rewrite Hpath. cbn [format_issue]. rewrite Hnone.
  cbn [default]. change (push_error (issue_message issue) empty_field_errors)
    with (JObj [("_errors", JArr [JStr (issue_message issue)])]).
  match goal with
  | |- context [fold_left ?f L2 (JObj ?p)] =>
      destruct (fold_format_other key L2 p H2) as (props2 & -> & Hget2)
  end.
  cbn [member]. by rewrite Hget2, obj_get_obj_set_eq.
Qed.

Lemma under_key_other key k (I : list ZodIssue) :
  key ≠ k → Forall (under_key k) I → Forall (under_other_key key) I.
Proof.
  intros Hne H. eapply Forall_impl; [exact H|]. intros issue [rest Hpath].
  exists k, rest. split; [done|congruence].
Qed.

(** X15.  A required field ([openapi], [info] or [paths]) that is
    missing from an object document is reported under its own key with
    the single message ["Required"]. *)
Theorem missing_field_is_required props key :
  key ∈ ["openapi"; "info"; "paths"] →
  obj_get key props = None →
  ∃ error,
    safeParse openApiSchema (JObj props) = SafeParseError error
    ∧ member key (ZodError_format error)
      = Some (JObj [("_errors", JArr [JStr "Required"])]).
Proof.
  intros Hkey Hnone. rewrite !elem_of_cons, elem_of_nil in Hkey.
  rewrite safeParse_openApiSchema.
  destruct (document_issues_by_field props)
    as (Io & Ii & Ip & Ic & -> & Eo & Ei & Ep & Uo & Ui & Up & Uc & _).
  destruct Hkey as [->|[->|[->|[]]]].
  - assert (Io = [invalid_type_issue ["openapi"] PT_string PT_undefined])
      as -> by (rewrite Eo, Hnone; reflexivity).
    cbn [structurally_valid]. rewrite Hnone. cbn [openapi_ok andb].
    eexists. split; [reflexivity|].
    apply (details_of_single_issue "openapi" []
             (invalid_type_issue ["openapi"] PT_string PT_undefined)
             (Ii ++ Ip ++ Ic));
      [done|constructor| |done].
    rewrite !Forall_app. split_and!; (eapply under_key_other; [|eassumption]; done).
  - assert (Ii = [invalid_type_issue ["info"] PT_object PT_undefined])
      as -> by (rewrite Ei, Hnone; reflexivity).
    cbn [structurally_valid]. rewrite Hnone.
    cbn [info_ok andb]. rewrite andb_false_r. cbn [andb].
    eexists. split; [reflexivity|].
    apply (details_of_single_issue "info" Io
             (invalid_type_issue ["info"] PT_object PT_undefined) (Ip ++ Ic));
      [done|(eapply under_key_other; [|eassumption]; done)| |done].
    rewrite !Forall_app. split_and!; (eapply under_key_other; [|eassumption]; done).
  - assert (Ip = [invalid_type_issue ["paths"] PT_object PT_undefined])
      as -> by (rewrite Ep, Hnone; reflexivity).
    cbn [structurally_valid]. rewrite Hnone.
    cbn [is_mapping andb]. rewrite andb_false_r. cbn [andb].
    eexists. split; [reflexivity|].
    rewrite (app_assoc Io Ii).
    apply (details_of_single_issue "paths" (Io ++ Ii)
             (invalid_type_issue ["paths"] PT_object PT_undefined) Ic);
      [done| |(eapply under_key_other; [|eassumption]; done)|done].
    rewrite !Forall_app. split_and!; (eapply under_key_other; [|eassumption]; done).
Qed.

Lemma missing_field_is_required_witness :
  "info" ∈ ["openapi"; "info"; "paths"]
  ∧ obj_get "info" [("openapi", JStr "3.0.0"); ("paths", JObj [])] = None
  ∧ ∃ error,
      safeParse openApiSchema
        (JObj [("openapi", JStr "3.0.0"); ("paths", JObj [])])
      = SafeParseError error
      ∧ member "info" (ZodError_format error)
        = Some (JObj [("_errors", JArr [JStr "Required"])]).
Proof.
  assert ("info" ∈ ["openapi"; "info"; "paths"]) as Hkey.
  { apply list_elem_of_further, list_elem_of_here. }
  split; [exact Hkey|]. split; [reflexivity|].
  exact (missing_field_is_required
           [("openapi", JStr "3.0.0"); ("paths", JObj [])] "info"
           Hkey eq_refl).
Defined.
